(** * SportingClubService: the IndexedDB-backed data-access layer

    A shallow embedding of [class SportingClubService] (lib/db.ts): the three
    object stores ([sports], [members], [subscriptions]) with the indexes
    declared in [init], the service methods as computations in a state and
    error monad, and the properties of the persistence and
    relationship-integrity layer, together with the two functions of the
    subscriptions page that compute on its results.

    The environment supplies what the methods read from the browser:
    [crypto.randomUUID()] and [new Date()] appear as the arguments [uuid] and
    [now] of the method that calls them. *)

From stdpp Require Import gmap strings list fin_maps sorting.
From Stdlib Require Import ZArith.

Local Open Scope Z_scope.

(** ** Records of the schema ([interface SportingClubDB]) *)

(** A [Date] is its number of milliseconds since the epoch. *)
Definition Date := Z.

Module Sport.
Record t := mk {
  id : string;
  name : string;
  description : string;
  category : string;
  maxMembers : option Z;
  createdAt : Date;
  updatedAt : Date;
}.

(** [Omit<Sport, 'id' | 'createdAt' | 'updatedAt'>] *)
Record input := mk_input {
  i_name : string;
  i_description : string;
  i_category : string;
  i_maxMembers : option Z;
}.

(** [Partial<Omit<Sport, 'id' | 'createdAt'>>]: a field is [None] when the
    key is not in the object. *)
Record updates := mk_updates {
  u_name : option string;
  u_description : option string;
  u_category : option string;
  u_maxMembers : option (option Z);
  u_updatedAt : option Date;
}.
End Sport.

Module Member.
Inductive status := active | inactive.

Record t := mk {
  id : string;
  firstName : string;
  lastName : string;
  email : string;
  phone : string;
  dateOfBirth : Date;
  address : string;
  membershipDate : Date;
  status_ : status;
  createdAt : Date;
  updatedAt : Date;
}.

Record input := mk_input {
  i_firstName : string;
  i_lastName : string;
  i_email : string;
  i_phone : string;
  i_dateOfBirth : Date;
  i_address : string;
  i_membershipDate : Date;
  i_status : status;
}.

Record updates := mk_updates {
  u_firstName : option string;
  u_lastName : option string;
  u_email : option string;
  u_phone : option string;
  u_dateOfBirth : option Date;
  u_address : option string;
  u_membershipDate : option Date;
  u_status : option status;
  u_updatedAt : option Date;
}.
End Member.

Module Subscription.
Inductive status := active | cancelled.

#[global] Instance status_eq_dec : EqDecision status.
Proof. solve_decision. Defined.

Record t := mk {
  id : string;
  memberId : string;
  sportId : string;
  subscriptionDate : Date;
  status_ : status;
  createdAt : Date;
  updatedAt : Date;
}.
End Subscription.

(** ** The service state

    [connected] is [this.db !== null].  The three maps are the object stores
    of the database 'SportingClubDB', each keyed by its key path [id]; they
    live in the browser and outlast the connection. *)
Record state := mk_state {
  connected : bool;
  sports : gmap string Sport.t;
  members : gmap string Member.t;
  subscriptions : gmap string Subscription.t;
}.

(** A browser that never opened the database. *)
Definition fresh : state := mk_state false ∅ ∅ ∅.

(** ** Failures

    The [Error]s thrown by the service, by message, and the [ConstraintError]
    with which IndexedDB rejects an [add] or [put]. *)
Inductive error :=
  | DatabaseNotInitialized   (* 'Database not initialized. Call init() first.' *)
  | SportNotFound            (* 'Sport not found' *)
  | MemberNotFound           (* 'Member not found' *)
  | AlreadySubscribed        (* 'Member is already subscribed to this sport' *)
  | SubscriptionNotFound     (* 'Subscription not found' *)
  | ConstraintError.         (* DOMException of the storage medium *)

(** The error kinds the design distinguishes. *)
Inductive error_kind := NotFound | Conflict | NotInitialized.

Definition kind_of (e : error) : error_kind :=
  match e with
  | DatabaseNotInitialized => NotInitialized
  | SportNotFound | MemberNotFound | SubscriptionNotFound => NotFound
  | AlreadySubscribed | ConstraintError => Conflict
  end.

Inductive result (A : Type) :=
  | Ok (a : A)
  | Err (e : error).
Arguments Ok {A} a.
Arguments Err {A} e.


(** ** Asynchronous methods as state-passing computations

    One browser tab runs one method at a time, so an [async] method is a
    function of the state; a [throw] (or a rejected promise) stops it and
    keeps the state reached so far. *)
Definition Async (A : Type) : Type := state → result A * state.

#[global] Instance async_ret : MRet Async := λ A a st, (Ok a, st).

#[global] Instance async_bind : MBind Async := λ A B k c st,
  match c st with
  | (Ok a, st') => k a st'
  | (Err e, st') => (Err e, st')
  end.

Definition throw {A} (e : error) : Async A := λ st, (Err e, st).

(** ** The storage medium

    An object store of records [R] with key path [keyPath]; [collide a b]
    tells whether [a] and [b] have the same key in some index created with
    [{ unique: true }]. *)
Record ObjectStore (R : Type) := mk_store {
  keyPath : R → string;
  collide : R → R → bool;
  content : state → gmap string R;
  replace : gmap string R → state → state;
}.
Arguments keyPath {R} _ _.
Arguments collide {R} _ _ _.
Arguments content {R} _ _.
Arguments replace {R} _ _ _.

Definition by_email (m : Member.t) : string := Member.email m.
Definition by_member (s : Subscription.t) : string := Subscription.memberId s.
Definition by_sport (s : Subscription.t) : string := Subscription.sportId s.
Definition by_member_sport (s : Subscription.t) : string * string :=
  (Subscription.memberId s, Subscription.sportId s).

(** [db.createObjectStore('sports', { keyPath: 'id' })]; its only index,
    'by-category', is not unique. *)
Definition sportsStore : ObjectStore Sport.t :=
  mk_store _ Sport.id (λ _ _, false) sports
    (λ m st, mk_state (connected st) m (members st) (subscriptions st)).

(** 'members', with [createIndex('by-email', 'email', { unique: true })]. *)
Definition membersStore : ObjectStore Member.t :=
  mk_store _ Member.id (λ a b, bool_decide (by_email a = by_email b)) members
    (λ m st, mk_state (connected st) (sports st) m (subscriptions st)).

(** 'subscriptions', with
    [createIndex('by-member-sport', ['memberId', 'sportId'], { unique: true })]. *)
Definition subscriptionsStore : ObjectStore Subscription.t :=
  mk_store _ Subscription.id
    (λ a b, bool_decide (by_member_sport a = by_member_sport b)) subscriptions
    (λ m st, mk_state (connected st) (sports st) (members st) m).

(** No record stored under another key collides with [r] on a unique index. *)
Definition admissible {R} (S : ObjectStore R) (r : R) (m : gmap string R) : Prop :=
  map_Forall (λ k x, k = keyPath S r ∨ collide S x r = false) m.

#[global] Instance admissible_dec {R} (S : ObjectStore R) r m :
  Decision (admissible S r m).
Proof. unfold admissible. apply _. Defined.

(** Records come out of a store, or of one key of an index, in ascending
    order of their primary key. *)
Definition key_le {R} (S : ObjectStore R) (a b : R) : Prop :=
  String.leb (keyPath S a) (keyPath S b) = true.

#[global] Instance key_le_dec {R} (S : ObjectStore R) a b : Decision (key_le S a b).
Proof. unfold key_le. apply _. Defined.

Definition records {R} (S : ObjectStore R) (m : gmap string R) : list R :=
  merge_sort (key_le S) (snd <$> map_to_list m).

Section idb.
Context {R : Type} (S : ObjectStore R).

(** [db.get(store, key)] *)
Definition db_get (key : string) : Async (option R) :=
  λ st, (Ok (content S st !! key), st).

(** [db.getAll(store)] *)
Definition db_getAll : Async (list R) :=
  λ st, (Ok (records S (content S st)), st).

(** [db.getAllFromIndex(store, index, key)] *)
Definition db_getAllFromIndex {K} `{EqDecision K} (index : R → K) (key : K)
  : Async (list R) :=
  λ st, (Ok (filter (λ r, index r = key) (records S (content S st))), st).

(** [db.getFromIndex(store, index, key)]: the first record of the index
    with that key, [undefined] when there is none. *)
Definition db_getFromIndex {K} `{EqDecision K} (index : R → K) (key : K)
  : Async (option R) :=
  λ st, (Ok (head (filter (λ r, index r = key) (records S (content S st)))), st).

(** [db.add(store, value)]: rejected when the key is taken or a unique
    index would hold two records with one key; the transaction aborts and
    nothing is written. *)
Definition db_add (value : R) : Async string :=
  λ st,
    let m := content S st in
    match m !! keyPath S value with
    | Some _ => (Err ConstraintError, st)
    | None =>
        if decide (admissible S value m)
        then (Ok (keyPath S value), replace S (<[keyPath S value := value]> m) st)
        else (Err ConstraintError, st)
    end.

(** [db.put(store, value)]: as [add], but a record with the same key is
    overwritten. *)
Definition db_put (value : R) : Async string :=
  λ st,
    let m := content S st in
    if decide (admissible S value m)
    then (Ok (keyPath S value), replace S (<[keyPath S value := value]> m) st)
    else (Err ConstraintError, st).

(** [db.delete(store, key)] *)
Definition db_delete (key : string) : Async unit :=
  λ st, (Ok tt, replace S (delete key (content S st)) st).
End idb.

(** ** The service *)

(** [ensureDB()] *)
Definition ensureDB : Async unit :=
  λ st, if connected st then (Ok tt, st) else (Err DatabaseNotInitialized, st).

(** *** Sports operations *)

(** [{ ...sport, id, createdAt: now, updatedAt: now }] *)
Definition sportData (sport : Sport.input) (id : string) (now : Date) : Sport.t :=
  Sport.mk id (Sport.i_name sport) (Sport.i_description sport)
    (Sport.i_category sport) (Sport.i_maxMembers sport) now now.

Definition addSport (sport : Sport.input) (uuid : string) (now : Date)
  : Async Sport.t :=
  ensureDB;;
  let id := uuid in
  db_add sportsStore (sportData sport id now);;
  mret (sportData sport id now).

Definition getSport (id : string) : Async (option Sport.t) :=
  ensureDB;;
  db_get sportsStore id.

Definition getAllSports : Async (list Sport.t) :=
  ensureDB;;
  db_getAll sportsStore.

(** [{ ...sport, ...updates, updatedAt: new Date() }]; an [updatedAt] given
    in [updates] is overwritten by the last key. *)
Definition updatedSport (sport : Sport.t) (updates : Sport.updates) (now : Date)
  : Sport.t :=
  Sport.mk (Sport.id sport)
    (default (Sport.name sport) (Sport.u_name updates))
    (default (Sport.description sport) (Sport.u_description updates))
    (default (Sport.category sport) (Sport.u_category updates))
    (default (Sport.maxMembers sport) (Sport.u_maxMembers updates))
    (Sport.createdAt sport)
    now.

Definition updateSport (id : string) (updates : Sport.updates) (now : Date)
  : Async Sport.t :=
  ensureDB;;
  sport ← db_get sportsStore id;
  match sport with
  | None => throw SportNotFound
  | Some sport =>
      db_put sportsStore (updatedSport sport updates now);;
      mret (updatedSport sport updates now)
  end.

Definition deleteSport (id : string) : Async unit :=
  ensureDB;;
  db_delete sportsStore id.

(** *** Members operations *)

(** [{ ...member, id, createdAt: now, updatedAt: now }] *)
Definition memberData (member : Member.input) (id : string) (now : Date)
  : Member.t :=
  Member.mk id (Member.i_firstName member) (Member.i_lastName member)
    (Member.i_email member) (Member.i_phone member)
    (Member.i_dateOfBirth member) (Member.i_address member)
    (Member.i_membershipDate member) (Member.i_status member) now now.

Definition addMember (member : Member.input) (uuid : string) (now : Date)
  : Async Member.t :=
  ensureDB;;
  let id := uuid in
  db_add membersStore (memberData member id now);;
  mret (memberData member id now).

Definition getMember (id : string) : Async (option Member.t) :=
  ensureDB;;
  db_get membersStore id.

Definition getAllMembers : Async (list Member.t) :=
  ensureDB;;
  db_getAll membersStore.

(** [{ ...member, ...updates, updatedAt: new Date() }]; an [updatedAt] given
    in [updates] is overwritten by the last key. *)
Definition updatedMember (member : Member.t) (updates : Member.updates)
    (now : Date) : Member.t :=
  Member.mk (Member.id member)
    (default (Member.firstName member) (Member.u_firstName updates))
    (default (Member.lastName member) (Member.u_lastName updates))
    (default (Member.email member) (Member.u_email updates))
    (default (Member.phone member) (Member.u_phone updates))
    (default (Member.dateOfBirth member) (Member.u_dateOfBirth updates))
    (default (Member.address member) (Member.u_address updates))
    (default (Member.membershipDate member) (Member.u_membershipDate updates))
    (default (Member.status_ member) (Member.u_status updates))
    (Member.createdAt member)
    now.

Definition updateMember (id : string) (updates : Member.updates) (now : Date)
  : Async Member.t :=
  ensureDB;;
  member ← db_get membersStore id;
  match member with
  | None => throw MemberNotFound
  | Some member =>
      db_put membersStore (updatedMember member updates now);;
      mret (updatedMember member updates now)
  end.

Definition deleteMember (id : string) : Async unit :=
  ensureDB;;
  db_delete membersStore id.

(** *** Subscriptions operations *)

(** [try { ... } catch { ... }] *)
Definition try_catch {A} (body handler : Async A) : Async A :=
  λ st, match body st with
        | (Ok a, st') => (Ok a, st')
        | (Err _, st') => handler st'
        end.

Definition getSubscription (memberId sportId : string)
  : Async (option Subscription.t) :=
  ensureDB;;
  try_catch
    (db_getFromIndex subscriptionsStore by_member_sport (memberId, sportId))
    (mret None).

(** [{ id, memberId, sportId, subscriptionDate: now, status: 'active',
      createdAt: now, updatedAt: now }] *)
Definition subscriptionData (id memberId sportId : string) (now : Date)
  : Subscription.t :=
  Subscription.mk id memberId sportId now Subscription.active now now.

Definition subscribeMemberToSport (memberId sportId : string)
    (uuid : string) (now : Date) : Async Subscription.t :=
  ensureDB;;
  existing ← getSubscription memberId sportId;
  match existing with
  | Some (Subscription.mk _ _ _ _ Subscription.active _ _) =>
      throw AlreadySubscribed
  | _ =>
      let id := uuid in
      db_add subscriptionsStore (subscriptionData id memberId sportId now);;
      mret (subscriptionData id memberId sportId now)
  end.

Definition getMemberSubscriptions (memberId : string)
  : Async (list Subscription.t) :=
  ensureDB;;
  db_getAllFromIndex subscriptionsStore by_member memberId.

Definition getSportSubscriptions (sportId : string)
  : Async (list Subscription.t) :=
  ensureDB;;
  db_getAllFromIndex subscriptionsStore by_sport sportId.

Definition getAllSubscriptions : Async (list Subscription.t) :=
  ensureDB;;
  db_getAll subscriptionsStore.

(** [{ ...subscription, status: 'cancelled', updatedAt: new Date() }] *)
Definition updatedSubscription (subscription : Subscription.t) (now : Date)
  : Subscription.t :=
  Subscription.mk (Subscription.id subscription)
    (Subscription.memberId subscription)
    (Subscription.sportId subscription)
    (Subscription.subscriptionDate subscription)
    Subscription.cancelled
    (Subscription.createdAt subscription)
    now.

Definition cancelSubscription (memberId sportId : string) (now : Date)
  : Async Subscription.t :=
  ensureDB;;
  subscription ← getSubscription memberId sportId;
  match subscription with
  | None => throw SubscriptionNotFound
  | Some subscription =>
      db_put subscriptionsStore (updatedSubscription subscription now);;
      mret (updatedSubscription subscription now)
  end.

(** *** Enhanced queries *)

(** [Promise.all]: the results in order, or the first rejection. *)
Fixpoint Promise_all {A} (promises : list (Async A)) : Async (list A) :=
  match promises with
  | [] => mret []
  | p :: rest => a ← p; others ← Promise_all rest; mret (a :: others)
  end.

(** [sub => sub.status === 'active'] *)
Definition is_active (sub : Subscription.t) : Prop :=
  Subscription.status_ sub = Subscription.active.

#[global] Instance is_active_dec sub : Decision (is_active sub).
Proof. unfold is_active. apply _. Defined.

(** [xs.filter(Boolean)] on a list of records or [undefined]. *)
Definition filter_Boolean {A} (xs : list (option A)) : list A := omap id xs.

Module MemberWithSports.
Record t := mk {
  member : Member.t;
  sports : list Sport.t;
  subscriptions : list Subscription.t;
}.
End MemberWithSports.

Module SportWithMembers.
Record t := mk {
  sport : Sport.t;
  members : list Member.t;
  subscriptions : list Subscription.t;
  memberCount : nat;
}.
End SportWithMembers.

Definition getMemberWithSports (memberId : string)
  : Async (option MemberWithSports.t) :=
  member ← getMember memberId;
  match member with
  | None => mret None
  | Some member =>
      subscriptions ← getMemberSubscriptions memberId;
      let activeSubscriptions := filter is_active subscriptions in
      sports ← Promise_all
        ((λ sub, getSport (Subscription.sportId sub)) <$> activeSubscriptions);
      mret (Some (MemberWithSports.mk member (filter_Boolean sports)
                    activeSubscriptions))
  end.

Definition getSportWithMembers (sportId : string)
  : Async (option SportWithMembers.t) :=
  sport ← getSport sportId;
  match sport with
  | None => mret None
  | Some sport =>
      subscriptions ← getSportSubscriptions sportId;
      let activeSubscriptions := filter is_active subscriptions in
      members ← Promise_all
        ((λ sub, getMember (Subscription.memberId sub)) <$> activeSubscriptions);
      mret (Some (SportWithMembers.mk sport (filter_Boolean members)
                    activeSubscriptions (length activeSubscriptions)))
  end.

(** [store.clear()] *)
Definition db_clear {R} (S : ObjectStore R) : Async unit :=
  λ st, (Ok tt, replace S ∅ st).

Definition clearAllData : Async unit :=
  ensureDB;;
  Promise_all
    [db_clear sportsStore; db_clear membersStore; db_clear subscriptionsStore];;
  mret tt.

(** *** Life cycle *)

Definition initialSports : list Sport.input :=
  [ Sport.mk_input "Football" "Association football" "Team Sports" None;
    Sport.mk_input "Basketball" "Indoor basketball" "Team Sports" None;
    Sport.mk_input "Tennis" "Individual or doubles tennis" "Racquet Sports" None;
    Sport.mk_input "Swimming" "Competitive swimming" "Water Sports" None;
    Sport.mk_input "Volleyball" "Indoor volleyball" "Team Sports" None ].

(** [for (const sport of initialSports) await this.addSport(sport)]; the
    [k]-th iteration reads [uuids k] and [dates k] from the browser. *)
Fixpoint seed_loop (todo : list Sport.input) (k : nat)
    (uuids : nat → string) (dates : nat → Date) : Async unit :=
  match todo with
  | [] => mret tt
  | sport :: rest =>
      addSport sport (uuids k) (dates k);;
      seed_loop rest (S k) uuids dates
  end.

Definition seedInitialData (uuids : nat → string) (dates : nat → Date)
  : Async unit :=
  sports ← getAllSports;
  if decide (length sports = 0%nat)
  then seed_loop initialSports 0 uuids dates
  else mret tt.

(** [openDB]: the connection is stored in [this.db]; the upgrade callback
    creates the (empty) stores of a database that did not exist. *)
Definition openDB : Async unit :=
  λ st, (Ok tt, mk_state true (sports st) (members st) (subscriptions st)).

Definition init (uuids : nat → string) (dates : nat → Date) : Async unit :=
  openDB;;
  seedInitialData uuids dates.

Definition close : Async unit :=
  λ st, (Ok tt, mk_state false (sports st) (members st) (subscriptions st)).

(** ** The public methods as one type of calls *)

Inductive op :=
  | Init (uuids : nat → string) (dates : nat → Date)
  | Close
  | AddSport (sport : Sport.input) (uuid : string) (now : Date)
  | GetSport (id : string)
  | GetAllSports
  | UpdateSport (id : string) (updates : Sport.updates) (now : Date)
  | DeleteSport (id : string)
  | AddMember (member : Member.input) (uuid : string) (now : Date)
  | GetMember (id : string)
  | GetAllMembers
  | UpdateMember (id : string) (updates : Member.updates) (now : Date)
  | DeleteMember (id : string)
  | SubscribeMemberToSport (memberId sportId : string) (uuid : string) (now : Date)
  | GetSubscription (memberId sportId : string)
  | GetMemberSubscriptions (memberId : string)
  | GetSportSubscriptions (sportId : string)
  | GetAllSubscriptions
  | CancelSubscription (memberId sportId : string) (now : Date)
  | GetMemberWithSports (memberId : string)
  | GetSportWithMembers (sportId : string)
  | ClearAllData.

(** A call whose returned value is dropped. *)
Definition void {A} (c : Async A) : Async unit := c;; mret tt.

Definition run (o : op) : Async unit :=
  match o with
  | Init uuids dates => init uuids dates
  | Close => close
  | AddSport sport uuid now => void (addSport sport uuid now)
  | GetSport id => void (getSport id)
  | GetAllSports => void getAllSports
  | UpdateSport id updates now => void (updateSport id updates now)
  | DeleteSport id => deleteSport id
  | AddMember member uuid now => void (addMember member uuid now)
  | GetMember id => void (getMember id)
  | GetAllMembers => void getAllMembers
  | UpdateMember id updates now => void (updateMember id updates now)
  | DeleteMember id => deleteMember id
  | SubscribeMemberToSport m s uuid now => void (subscribeMemberToSport m s uuid now)
  | GetSubscription m s => void (getSubscription m s)
  | GetMemberSubscriptions m => void (getMemberSubscriptions m)
  | GetSportSubscriptions s => void (getSportSubscriptions s)
  | GetAllSubscriptions => void getAllSubscriptions
  | CancelSubscription m s now => void (cancelSubscription m s now)
  | GetMemberWithSports m => void (getMemberWithSports m)
  | GetSportWithMembers s => void (getSportWithMembers s)
  | ClearAllData => clearAllData
  end.

(** The states a browser can be in: any sequence of calls, failed or not,
    from a browser without the database. *)
Inductive reachable : state → Prop :=
  | reachable_fresh : reachable fresh
  | reachable_step o st : reachable st → reachable (run o st).2.

(** The UUIDs that one call of [init] draws for the starter sports are
    pairwise different. *)
Definition distinct_uuids (o : op) : Prop :=
  match o with
  | Init uuids _ => NoDup (uuids <$> seq 0 (length initialSports))
  | _ => True
  end.

#[global] Instance distinct_uuids_dec o : Decision (distinct_uuids o).
Proof. destruct o; simpl; apply _. Defined.

(** ** What the storage medium maintains *)

(** Every record is stored under its own key path. *)
Definition keyed {R} (S : ObjectStore R) (m : gmap string R) : Prop :=
  map_Forall (λ k r, keyPath S r = k) m.

(** No two records of the store have the same key in a unique index. *)
Definition unique {R} (S : ObjectStore R) (m : gmap string R) : Prop :=
  map_Forall (λ _ r, admissible S r m) m.

Definition store_ok {R} (S : ObjectStore R) (st : state) : Prop :=
  keyed S (content S st) ∧ unique S (content S st).

Definition consistent (st : state) : Prop :=
  store_ok sportsStore st ∧ store_ok membersStore st ∧
  store_ok subscriptionsStore st.

#[global] Instance consistent_dec st : Decision (consistent st).
Proof. unfold consistent, store_ok, keyed, unique. apply _. Defined.

(** The pair (memberId, sportId) has a record in the store. *)
Definition has_subscription (memberId sportId : string) (st : state) : Prop :=
  map_Exists (λ _ r, by_member_sport r = (memberId, sportId)) (subscriptions st).

(** [k] holds a subscription of the pair with status 'active'. *)
Definition active_at (memberId sportId k : string) (st : state) : Prop :=
  ∃ r, subscriptions st !! k = Some r ∧
       by_member_sport r = (memberId, sportId) ∧ is_active r.

(** ** Shapes of computations *)

(** Queries: computations that hand back the state they received. *)
Definition readonly {A} (c : Async A) : Prop := ∀ st, (c st).2 = st.


(** A computation that keeps the stores consistent. *)
Definition preserving {A} (c : Async A) : Prop :=
  ∀ st, consistent st → consistent (c st).2.

(** The rows of the index 'by-member' (resp. 'by-sport') under one key that
    have status 'active'. *)
Definition active_of_member (m : string) (st : state) : list Subscription.t :=
  filter is_active
    (filter (λ r, by_member r = m) (records subscriptionsStore (subscriptions st))).

Definition active_of_sport (s : string) (st : state) : list Subscription.t :=
  filter is_active
    (filter (λ r, by_sport r = s) (records subscriptionsStore (subscriptions st))).

(** ** Kinds of calls *)

(** The methods that start with [ensureDB()], directly or through the method
    they call first: all but [init] and [close]. *)
Definition uses_database (o : op) : Prop :=
  match o with
  | Init _ _ | Close => False
  | _ => True
  end.

#[global] Instance uses_database_dec o : Decision (uses_database o).
Proof. destruct o; simpl; apply _. Defined.

(** The methods that only call [get], [getAll], [getFromIndex] and
    [getAllFromIndex]. *)
Definition is_query (o : op) : bool :=
  match o with
  | GetSport _ | GetAllSports | GetMember _ | GetAllMembers
  | GetSubscription _ _ | GetMemberSubscriptions _ | GetSportSubscriptions _
  | GetAllSubscriptions | GetMemberWithSports _ | GetSportWithMembers _ => true
  | _ => false
  end.

(** The sports store after the iterations of [seed_loop] that all succeed. *)
Fixpoint after_seed (todo : list Sport.input) (k : nat)
    (uuids : nat → string) (dates : nat → Date) (m : gmap string Sport.t)
  : gmap string Sport.t :=
  match todo with
  | [] => m
  | sport :: rest =>
      after_seed rest (S k) uuids dates
        (<[uuids k := sportData sport (uuids k) (dates k)]> m)
  end.

(** ** The subscriptions page (pages/SubscriptionsPage.tsx)

    The two functions of the page that compute on the data of the service:
    the effect that loads the members with their sports, and the choice of
    sports offered for a new subscription. *)

(** The [{ id, name, category }] entries of [MemberWithSports.sports]. *)
Module PageSport.
Record t := mk {
  id : string;
  name : string;
  category : string;
}.
End PageSport.

(** [interface MemberWithSports] of the page. *)
Module PageMember.
Record t := mk {
  id : string;
  firstName : string;
  lastName : string;
  email : string;
  sports : list PageSport.t;
}.
End PageMember.

(** The callback of [members.map] in [loadMembersWithSports]; the optional
    chain ends in [|| []] when the service returns [null]. *)
Definition memberEntry (member : Member.t) : Async PageMember.t :=
  memberWithSports ← getMemberWithSports (Member.id member);
  mret (PageMember.mk (Member.id member) (Member.firstName member)
          (Member.lastName member) (Member.email member)
          (match memberWithSports with
           | Some view =>
               (λ sport, PageSport.mk (Sport.id sport) (Sport.name sport)
                           (Sport.category sport))
                 <$> MemberWithSports.sports view
           | None => []
           end)).

(** [loadMembersWithSports]: [Some membersData] is the value passed to
    [setMembersWithSports]; [None] when the effect returns without setting
    it. *)
Definition loadMembersWithSports (isInitialized : bool)
    (members : list Member.t) : Async (option (list PageMember.t)) :=
  if negb isInitialized || bool_decide (length members = 0%nat)
  then mret None
  else
    membersData ← Promise_all (memberEntry <$> members);
    mret (Some membersData).

(** [getAvailableSports], as a function of the state variables it reads. *)
Definition getAvailableSports (selectedMember : string) (sports : list Sport.t)
    (membersWithSports : list PageMember.t) : list Sport.t :=
  if decide (selectedMember = "") then sports
  else
    let memberSports :=
      match list_find (λ m, PageMember.id m = selectedMember) membersWithSports with
      | Some (_, m) => PageMember.sports m
      | None => []
      end in
    let memberSportIds := PageSport.id <$> memberSports in
    filter (λ sport, Sport.id sport ∉ memberSportIds) sports.

(** The entry [memberEntry] computes on a connected service. *)
Definition entry_of (st : state) (member : Member.t) : PageMember.t :=
  PageMember.mk (Member.id member) (Member.firstName member)
    (Member.lastName member) (Member.email member)
    (match members st !! Member.id member with
     | Some _ =>
         (λ sport, PageSport.mk (Sport.id sport) (Sport.name sport)
                     (Sport.category sport))
           <$> filter_Boolean
                 ((λ sub, sports st !! Subscription.sportId sub)
                    <$> active_of_member (Member.id member) st)
     | None => []
     end).

(** ** Sample data *)

Definition football : Sport.input :=
  Sport.mk_input "Football" "Association football" "Team Sports" None.

Definition alice : Member.input :=
  Member.mk_input "Alice" "Archer" "a@b.com" "555-0100" 0 "1 Main Street" 1000
    Member.active.

(** Another person who gives the e-mail address of [alice]. *)
Definition bob : Member.input :=
  Member.mk_input "Bob" "Baker" "a@b.com" "555-0199" 500 "2 Side Street" 2000
    Member.inactive.

Definition sample_uuids (k : nat) : string :=
  match k with
  | 0 => "s-0" | 1 => "s-1" | 2 => "s-2" | 3 => "s-3" | _ => "s-4"
  end%nat.

Definition sample_dates (k : nat) : Date := Z.of_nat k.


(** The service after [init] in a new browser: the five starter sports. *)
Definition seeded : state := (init sample_uuids sample_dates fresh).2.

Definition with_alice : state := (addMember alice "m-1" 10 seeded).2.

(** Alice subscribed to Football ('s-0'). *)
Definition subscribed : state :=
  (subscribeMemberToSport "m-1" "s-0" "sub-1" 20 with_alice).2.

(** ... and cancelled. *)
Definition unsubscribed : state :=
  (cancelSubscription "m-1" "s-0" 30 subscribed).2.

(** Alice deleted while her subscription is active. *)
Definition orphaned : state := (deleteMember "m-1" subscribed).2.

Definition carol : Member.input :=
  Member.mk_input "Carol" "Cooper" "c@d.org" "555-0142" 700 "3 Hill Road" 3000
    Member.active.

(** Alice, subscribed to Football, and Carol. *)
Definition two_members : state := (addMember carol "m-2" 25 subscribed).2.

(** ** Lemmas on the storage medium *)

Section storage.
Context {R : Type} (S : ObjectStore R).

Lemma elem_of_records (m : gmap string R) r :
  r ∈ records S m ↔ ∃ k, m !! k = Some r.
Proof.
  unfold records. rewrite merge_sort_Permutation, list_elem_of_fmap. split.
  - intros [[k x] [-> Hin]]. exists k. by apply elem_of_map_to_list.
  - intros [k Hk]. exists (k, r). split; [done|]. by apply elem_of_map_to_list.
Qed.

Lemma length_records (m : gmap string R) : length (records S m) = size m.
Proof.
  unfold records.
  by rewrite merge_sort_Permutation, length_fmap, length_map_to_list.
Qed.

Lemma head_filter_Some {P : R → Prop} `{∀ r, Decision (P r)} (m : gmap string R) r :
  head (filter P (records S m)) = Some r → P r ∧ ∃ k, m !! k = Some r.
Proof.
  intros Hh. apply head_Some_elem_of, list_elem_of_filter in Hh as [HP Hin].
  split; [done|]. by apply elem_of_records.
Qed.

Lemma head_filter_None {P : R → Prop} `{∀ r, Decision (P r)} (m : gmap string R) :
  head (filter P (records S m)) = None ↔ ∀ k r, m !! k = Some r → ¬ P r.
Proof.
  rewrite head_None. split.
  - intros Hnil k r Hk HP.
    assert (r ∈ filter P (records S m)) as Hin.
    { apply list_elem_of_filter. split; [done|]. apply elem_of_records. eauto. }
    rewrite Hnil in Hin. by apply elem_of_nil in Hin.
  - intros Hno. destruct (filter P (records S m)) as [|r l] eqn:E; [done|].
    assert (r ∈ filter P (records S m)) as Hin by (rewrite E; left).
    apply list_elem_of_filter in Hin as [HP [k Hk]%elem_of_records].
    by destruct (Hno k r).
Qed.

Lemma keyed_insert (m : gmap string R) r :
  keyed S m → keyed S (<[keyPath S r := r]> m).
Proof.
  intros Hm k x. rewrite lookup_insert. case_decide; [|by apply Hm].
  by intros [= <-].
Qed.

Lemma keyed_delete (m : gmap string R) k : keyed S m → keyed S (delete k m).
Proof. apply map_Forall_delete. Qed.

Lemma unique_delete (m : gmap string R) k : unique S m → unique S (delete k m).
Proof.
  intros Hm i r Hi j x Hj.
  apply lookup_delete_Some in Hi as [_ Hi], Hj as [_ Hj].
  exact (Hm i r Hi j x Hj).
Qed.

Lemma keyed_empty : keyed S ∅.
Proof. apply map_Forall_empty. Qed.

Lemma unique_empty : unique S ∅.
Proof. apply map_Forall_empty. Qed.

(** Unique indexes compare keys: colliding is symmetric. *)
Hypothesis collide_sym : ∀ a b, collide S a b = collide S b a.

Lemma unique_insert (m : gmap string R) r :
  keyed S m → unique S m → admissible S r m →
  unique S (<[keyPath S r := r]> m).
Proof.
  intros Hk Hu Ha i a Hi j b Hj.
  rewrite lookup_insert in Hi, Hj.
  destruct (decide (keyPath S r = i)) as [<-|Hni];
    destruct (decide (keyPath S r = j)) as [<-|Hnj]; simplify_eq.
  - by left.
  - destruct (Ha j b Hj) as [->|Hc]; [done|]. by right.
  - right. destruct (Ha i a Hi) as [->|Hc]; [done|]. by rewrite collide_sym.
  - exact (Hu i a Hi j b Hj).
Qed.
End storage.

Lemma sports_collide_sym a b : collide sportsStore a b = collide sportsStore b a.
Proof. done. Qed.

Lemma members_collide_sym a b : collide membersStore a b = collide membersStore b a.
Proof. simpl. apply bool_decide_ext. split; congruence. Qed.

Lemma subscriptions_collide_sym a b :
  collide subscriptionsStore a b = collide subscriptionsStore b a.
Proof. simpl. apply bool_decide_ext. split; congruence. Qed.

(** Nothing collides in a store without unique index. *)
Lemma sports_admissible r m : admissible sportsStore r m.
Proof. intros k x _. by right. Qed.

(** ** Unfolding the methods *)

Ltac unfold_async :=
  unfold void, addSport, getSport, getAllSports, updateSport, deleteSport,
    addMember, getMember, getAllMembers, updateMember, deleteMember,
    subscribeMemberToSport, cancelSubscription, getSubscription,
    getMemberSubscriptions, getSportSubscriptions, getAllSubscriptions,
    clearAllData, openDB, close, throw, try_catch, ensureDB,
    db_get, db_getAll, db_getAllFromIndex, db_getFromIndex, db_add, db_put,
    db_delete, db_clear, mbind, async_bind, mret, async_ret in *;
  simpl in *.

Ltac break_async := unfold_async; repeat (case_match; simplify_eq/=).

Lemma readonly_bind {A B} (c : Async A) (k : A → Async B) :
  readonly c → (∀ a, readonly (k a)) → readonly (c ≫= k).
Proof.
  intros Hc Hk st. unfold mbind, async_bind. specialize (Hc st).
  destruct (c st) as [[a|e] st']; simpl in *; subst; [apply Hk|done].
Qed.

Lemma readonly_ret {A} (a : A) : readonly (mret a).
Proof. done. Qed.

Lemma readonly_Promise_all {A} (ps : list (Async A)) :
  Forall readonly ps → readonly (Promise_all ps).
Proof.
  induction 1 as [|p ps Hp _ IH]; simpl; [done|].
  apply readonly_bind; [done|]. intros a.
  apply readonly_bind; [done|]. intros others. apply readonly_ret.
Qed.

Lemma readonly_getSport id : readonly (getSport id).
Proof. intros st. unfold_async. by destruct (connected st). Qed.

Lemma readonly_getMember id : readonly (getMember id).
Proof. intros st. unfold_async. by destruct (connected st). Qed.

Lemma readonly_getMemberSubscriptions id : readonly (getMemberSubscriptions id).
Proof. intros st. unfold_async. by destruct (connected st). Qed.

Lemma readonly_getSportSubscriptions id : readonly (getSportSubscriptions id).
Proof. intros st. unfold_async. by destruct (connected st). Qed.

Lemma readonly_getSubscription m s : readonly (getSubscription m s).
Proof. intros st. unfold_async. by destruct (connected st). Qed.

Lemma readonly_getMemberWithSports id : readonly (getMemberWithSports id).
Proof.
  unfold getMemberWithSports.
  apply readonly_bind; [apply readonly_getMember|]. intros [member|]; [|done].
  apply readonly_bind; [apply readonly_getMemberSubscriptions|]. intros subs.
  apply readonly_bind; [|done].
  apply readonly_Promise_all, Forall_fmap, Forall_forall.
  intros sub _. apply readonly_getSport.
Qed.

Lemma readonly_getSportWithMembers id : readonly (getSportWithMembers id).
Proof.
  unfold getSportWithMembers.
  apply readonly_bind; [apply readonly_getSport|]. intros [sport|]; [|done].
  apply readonly_bind; [apply readonly_getSportSubscriptions|]. intros subs.
  apply readonly_bind; [|done].
  apply readonly_Promise_all, Forall_fmap, Forall_forall.
  intros sub _. apply readonly_getMember.
Qed.

Lemma readonly_void {A} (c : Async A) : readonly c → readonly (void c).
Proof. intros Hc. apply readonly_bind; [done|]. intros a. apply readonly_ret. Qed.

(** ** Failed calls write nothing *)












(** ** The stores stay consistent *)

Lemma preserving_bind {A B} (c : Async A) (k : A → Async B) :
  preserving c → (∀ a, preserving (k a)) → preserving (c ≫= k).
Proof.
  intros Hc Hk st Hst. unfold mbind, async_bind. specialize (Hc st Hst).
  destruct (c st) as [[a|e] st']; simpl in *; [by apply Hk|done].
Qed.

Lemma preserving_readonly {A} (c : Async A) : readonly c → preserving c.
Proof. intros Hc st Hst. by rewrite Hc. Qed.

Lemma preserving_ensureDB : preserving ensureDB.
Proof. apply preserving_readonly. intros st. unfold ensureDB. by case_match. Qed.

Create HintDb stores.

Local Hint Resolve sports_collide_sym members_collide_sym
  subscriptions_collide_sym : stores.

Ltac solve_write :=
  intros st (Hs & Hm & Hb);
  unfold db_add, db_put, db_delete, db_clear; simpl;
  repeat case_match; simpl; try done;
  destruct Hs, Hm, Hb; unfold consistent, store_ok; simpl;
  split_and!;
  first
    [ done
    | by apply (keyed_insert sportsStore)
    | by apply (keyed_insert membersStore)
    | by apply (keyed_insert subscriptionsStore)
    | by apply (unique_insert sportsStore); auto with stores
    | by apply (unique_insert membersStore); auto with stores
    | by apply (unique_insert subscriptionsStore); auto with stores
    | by apply keyed_delete
    | by apply unique_delete
    | by apply keyed_empty
    | by apply unique_empty ].

Lemma preserving_add_sport r : preserving (db_add sportsStore r).
Proof. solve_write. Qed.
Lemma preserving_put_sport r : preserving (db_put sportsStore r).
Proof. solve_write. Qed.
Lemma preserving_delete_sport k : preserving (db_delete sportsStore k).
Proof. solve_write. Qed.
Lemma preserving_add_member r : preserving (db_add membersStore r).
Proof. solve_write. Qed.
Lemma preserving_put_member r : preserving (db_put membersStore r).
Proof. solve_write. Qed.
Lemma preserving_delete_member k : preserving (db_delete membersStore k).
Proof. solve_write. Qed.
Lemma preserving_add_subscription r : preserving (db_add subscriptionsStore r).
Proof. solve_write. Qed.
Lemma preserving_put_subscription r : preserving (db_put subscriptionsStore r).
Proof. solve_write. Qed.
Lemma preserving_clear_sports : preserving (db_clear sportsStore).
Proof. solve_write. Qed.
Lemma preserving_clear_members : preserving (db_clear membersStore).
Proof. solve_write. Qed.
Lemma preserving_clear_subscriptions : preserving (db_clear subscriptionsStore).
Proof. solve_write. Qed.

Local Hint Resolve preserving_ensureDB preserving_add_sport preserving_put_sport
  preserving_delete_sport preserving_add_member preserving_put_member
  preserving_delete_member preserving_add_subscription
  preserving_put_subscription preserving_clear_sports preserving_clear_members
  preserving_clear_subscriptions : stores.

Ltac solve_preserving :=
  repeat first
    [ apply preserving_bind; [|intros ?]
    | solve [auto with stores]
    | solve [apply preserving_readonly; first
        [ apply readonly_ret | apply readonly_getSubscription
        | (intros ?; by unfold_async) ] ]
    | progress case_match ].

Lemma preserving_addSport sport uuid now : preserving (addSport sport uuid now).
Proof. unfold addSport. solve_preserving. Qed.

Lemma preserving_updateSport id updates now :
  preserving (updateSport id updates now).
Proof. unfold updateSport. solve_preserving. Qed.

Lemma preserving_addMember member uuid now :
  preserving (addMember member uuid now).
Proof. unfold addMember. solve_preserving. Qed.

Lemma preserving_updateMember id updates now :
  preserving (updateMember id updates now).
Proof. unfold updateMember. solve_preserving. Qed.

Lemma preserving_subscribeMemberToSport m s uuid now :
  preserving (subscribeMemberToSport m s uuid now).
Proof. unfold subscribeMemberToSport. solve_preserving. Qed.

Lemma preserving_cancelSubscription m s now :
  preserving (cancelSubscription m s now).
Proof. unfold cancelSubscription. solve_preserving. Qed.

Lemma preserving_clearAllData : preserving clearAllData.
Proof. unfold clearAllData, Promise_all. solve_preserving. Qed.

Lemma preserving_seed_loop todo k uuids dates :
  preserving (seed_loop todo k uuids dates).
Proof.
  revert k. induction todo as [|sport rest IH]; intros k; simpl.
  - by apply preserving_readonly.
  - apply preserving_bind; [apply preserving_addSport|]. intros _. apply IH.
Qed.

Lemma preserving_init uuids dates : preserving (init uuids dates).
Proof.
  unfold init, seedInitialData.
  apply preserving_bind; [by intros [] ?|]. intros _.
  apply preserving_bind.
  { apply preserving_readonly. intros st. by break_async. }
  intros sports. case_decide; [apply preserving_seed_loop|].
  by apply preserving_readonly.
Qed.

Lemma preserving_run o : preserving (run o).
Proof.
  destruct o; simpl; unfold void;
    try (apply preserving_bind; [|intros ?; by apply preserving_readonly]);
    first
      [ apply preserving_init
      | by intros [] ?
      | apply preserving_addSport | apply preserving_updateSport
      | apply preserving_addMember | apply preserving_updateMember
      | apply preserving_subscribeMemberToSport
      | apply preserving_cancelSubscription | apply preserving_clearAllData
      | solve [unfold deleteSport, deleteMember; solve_preserving]
      | apply preserving_readonly; first
          [ apply readonly_getSport | apply readonly_getMember
          | apply readonly_getMemberSubscriptions
          | apply readonly_getSportSubscriptions
          | apply readonly_getSubscription
          | apply readonly_getMemberWithSports
          | apply readonly_getSportWithMembers
          | (intros ?; by break_async) ] ].
Qed.

Lemma consistent_fresh : consistent fresh.
Proof.
  unfold consistent, store_ok; simpl.
  split_and!; first [apply keyed_empty | apply unique_empty].
Qed.

(** Every state the service can reach has consistent stores. *)
Lemma reachable_consistent st : reachable st → consistent st.
Proof.
  induction 1 as [|o st _ IH]; [apply consistent_fresh|].
  by apply preserving_run.
Qed.

(** ** Seeding with distinct UUIDs *)

Lemma addSport_connected st sport uuid now :
  connected st = true → sports st !! uuid = None →
  addSport sport uuid now st =
    (Ok (sportData sport uuid now),
     replace sportsStore (<[uuid := sportData sport uuid now]> (sports st)) st).
Proof.
  intros Hc Hfree. destruct st as [c sp me su]. unfold_async. subst c. simpl.
  rewrite Hfree. destruct (decide _) as [_|Hbad]; [done|].
  destruct Hbad. apply sports_admissible.
Qed.




(** ** The methods on a connected service *)

Lemma consistent_pair_unique st k1 k2 r1 r2 :
  consistent st →
  subscriptions st !! k1 = Some r1 → subscriptions st !! k2 = Some r2 →
  by_member_sport r1 = by_member_sport r2 → k1 = k2.
Proof.
  intros (_ & _ & Hk & Hu) H1 H2 Hpair.
  destruct (Hu k2 r2 H2 k1 r1 H1) as [->|Hc]; simpl in *.
  - apply (Hk k2 r2 H2).
  - by apply bool_decide_eq_false in Hc.
Qed.

Lemma consistent_email_unique st k1 k2 m1 m2 :
  consistent st →
  members st !! k1 = Some m1 → members st !! k2 = Some m2 →
  Member.email m1 = Member.email m2 → k1 = k2.
Proof.
  intros (_ & (Hk & Hu) & _) H1 H2 Hmail.
  destruct (Hu k2 m2 H2 k1 m1 H1) as [->|Hc]; simpl in *.
  - apply (Hk k2 m2 H2).
  - by apply bool_decide_eq_false in Hc.
Qed.

Lemma consistent_subscription_id st k r :
  consistent st → subscriptions st !! k = Some r → Subscription.id r = k.
Proof. intros (_ & _ & Hk & _) Hr. apply (Hk k r Hr). Qed.

Lemma consistent_sport_id st k r :
  consistent st → sports st !! k = Some r → Sport.id r = k.
Proof. intros ((Hk & _) & _) Hr. apply (Hk k r Hr). Qed.

Lemma getSport_connected st id :
  connected st = true → getSport id st = (Ok (sports st !! id), st).
Proof. intros Hc. unfold_async. by rewrite Hc. Qed.

Lemma getMember_connected st id :
  connected st = true → getMember id st = (Ok (members st !! id), st).
Proof. intros Hc. unfold_async. by rewrite Hc. Qed.

Lemma getSubscription_connected st m s :
  connected st = true →
  getSubscription m s st =
    (Ok (head (filter (λ r, by_member_sport r = (m, s))
                 (records subscriptionsStore (subscriptions st)))), st).
Proof. intros Hc. unfold_async. by rewrite Hc. Qed.

Lemma getSubscription_found st m s k r :
  connected st = true → consistent st →
  subscriptions st !! k = Some r → by_member_sport r = (m, s) →
  getSubscription m s st = (Ok (Some r), st).
Proof.
  intros Hc Hst Hr Hpair. rewrite getSubscription_connected by done.
  destruct (head _) as [r'|] eqn:Hh.
  - apply head_filter_Some in Hh as [Hpair' [k' Hr']].
    assert (k' = k) as -> by (eapply consistent_pair_unique; eauto; congruence).
    by simplify_eq.
  - rewrite head_filter_None in Hh. by destruct (Hh k r Hr).
Qed.

Lemma getSubscription_absent st m s :
  connected st = true → ¬ has_subscription m s st →
  getSubscription m s st = (Ok None, st).
Proof.
  intros Hc Hno. rewrite getSubscription_connected by done.
  repeat f_equal. apply head_filter_None. intros k r Hr Hpair.
  apply Hno. by exists k, r.
Qed.

Lemma db_add_fresh {R} (S : ObjectStore R) r st :
  content S st !! keyPath S r = None → admissible S r (content S st) →
  db_add S r st = (Ok (keyPath S r), replace S (<[keyPath S r := r]> (content S st)) st).
Proof. intros Hfree Hadm. unfold db_add. rewrite Hfree. by rewrite decide_True. Qed.

Lemma db_add_collision {R} (S : ObjectStore R) r st k x :
  content S st !! k = Some x → collide S x r = true →
  db_add S r st = (Err ConstraintError, st).
Proof.
  intros Hx Hcol. unfold db_add. destruct (_ !! keyPath S r) eqn:Hkey; [done|].
  rewrite decide_False; [done|]. intros Hadm.
  destruct (Hadm k x Hx) as [->|Hno]; congruence.
Qed.

Lemma db_put_admissible {R} (S : ObjectStore R) r st :
  admissible S r (content S st) →
  db_put S r st = (Ok (keyPath S r), replace S (<[keyPath S r := r]> (content S st)) st).
Proof. intros Hadm. unfold db_put. by rewrite decide_True. Qed.

Lemma bind_ensureDB {A} (k : Async A) st :
  connected st = true → (ensureDB;; k) st = k st.
Proof. intros Hc. unfold mbind, async_bind, ensureDB. by rewrite Hc. Qed.

Lemma bind_Ok {A B} (c : Async A) (k : A → Async B) st a st' :
  c st = (Ok a, st') → (c ≫= k) st = k a st'.
Proof. intros Hc. unfold mbind, async_bind. by rewrite Hc. Qed.

Lemma bind_Err {A B} (c : Async A) (k : A → Async B) st e st' :
  c st = (Err e, st') → (c ≫= k) st = (Err e, st').
Proof. intros Hc. unfold mbind, async_bind. by rewrite Hc. Qed.

Lemma addMember_connected st member uuid now :
  connected st = true → members st !! uuid = None →
  (∀ k x, members st !! k = Some x → Member.email x ≠ Member.i_email member) →
  addMember member uuid now st =
    (Ok (memberData member uuid now),
     replace membersStore (<[uuid := memberData member uuid now]> (members st)) st).
Proof.
  intros Hc Hfree Hmail. unfold addMember. rewrite bind_ensureDB by done.
  erewrite bind_Ok; [done|]. apply db_add_fresh; [done|].
  intros k x Hx. right. apply bool_decide_eq_false. apply (Hmail k x Hx).
Qed.

Lemma addMember_duplicate_email st member uuid now k x :
  connected st = true →
  members st !! k = Some x → Member.email x = Member.i_email member →
  addMember member uuid now st = (Err ConstraintError, st).
Proof.
  intros Hc Hx Hmail. unfold addMember. rewrite bind_ensureDB by done.
  apply bind_Err. eapply db_add_collision; [exact Hx|].
  by apply bool_decide_eq_true.
Qed.

(** *** Seeding with any UUIDs *)




(** ** Cancelling, subscribing and the joined views *)

Lemma cancelSubscription_found st m s now k r :
  connected st = true → consistent st →
  subscriptions st !! k = Some r → by_member_sport r = (m, s) →
  cancelSubscription m s now st =
    (Ok (updatedSubscription r now),
     replace subscriptionsStore
       (<[k := updatedSubscription r now]> (subscriptions st)) st).
Proof.
  intros Hc Hst Hr Hpair. unfold cancelSubscription.
  rewrite bind_ensureDB by done.
  erewrite bind_Ok by by eapply getSubscription_found.
  assert (Subscription.id r = k) as Hid by by eapply consistent_subscription_id.
  cbv beta iota. erewrite bind_Ok; [done|].
  rewrite db_put_admissible; [simpl; by rewrite Hid|].
  destruct Hst as (_ & _ & _ & Hu). exact (Hu k r Hr).
Qed.

Lemma cancelled_pair_not_active st m s now k r sub k' :
  consistent st →
  subscriptions st !! k = Some r → by_member_sport r = (m, s) →
  <[k := updatedSubscription r now]> (subscriptions st) !! k' = Some sub →
  by_member_sport sub = (m, s) → ¬ is_active sub.
Proof.
  intros Hst Hr Hpair Hsub Hpair' Hact.
  apply lookup_insert_Some in Hsub as [[_ <-]|[Hne Hsub]]; [done|].
  apply Hne. eapply consistent_pair_unique; eauto. congruence.
Qed.

Lemma Promise_all_getSport st (subs : list Subscription.t) :
  connected st = true →
  Promise_all ((λ sub, getSport (Subscription.sportId sub)) <$> subs) st =
    (Ok ((λ sub, sports st !! Subscription.sportId sub) <$> subs), st).
Proof.
  intros Hc. induction subs as [|sub subs IH]; [done|]. simpl.
  erewrite bind_Ok by by apply getSport_connected.
  erewrite bind_Ok by exact IH. done.
Qed.

Lemma Promise_all_getMember st (subs : list Subscription.t) :
  connected st = true →
  Promise_all ((λ sub, getMember (Subscription.memberId sub)) <$> subs) st =
    (Ok ((λ sub, members st !! Subscription.memberId sub) <$> subs), st).
Proof.
  intros Hc. induction subs as [|sub subs IH]; [done|]. simpl.
  erewrite bind_Ok by by apply getMember_connected.
  erewrite bind_Ok by exact IH. done.
Qed.

Lemma getMemberWithSports_connected st m :
  connected st = true →
  getMemberWithSports m st =
    (Ok ((λ member,
            MemberWithSports.mk member
              (filter_Boolean ((λ sub, sports st !! Subscription.sportId sub)
                                 <$> active_of_member m st))
              (active_of_member m st)) <$> members st !! m), st).
Proof.
  intros Hc. unfold getMemberWithSports.
  erewrite bind_Ok by by apply getMember_connected.
  destruct (members st !! m) as [member|]; [|done]. cbv beta iota.
  erewrite bind_Ok by (unfold_async; by rewrite Hc). cbv zeta.
  erewrite bind_Ok by by apply Promise_all_getSport. done.
Qed.

Lemma getSportWithMembers_connected st s :
  connected st = true →
  getSportWithMembers s st =
    (Ok ((λ sport,
            SportWithMembers.mk sport
              (filter_Boolean ((λ sub, members st !! Subscription.memberId sub)
                                 <$> active_of_sport s st))
              (active_of_sport s st) (length (active_of_sport s st)))
           <$> sports st !! s), st).
Proof.
  intros Hc. unfold getSportWithMembers.
  erewrite bind_Ok by by apply getSport_connected.
  destruct (sports st !! s) as [sport|]; [|done]. cbv beta iota.
  erewrite bind_Ok by (unfold_async; by rewrite Hc). cbv zeta.
  erewrite bind_Ok by by apply Promise_all_getMember. done.
Qed.

Lemma elem_of_active_of_member st m sub :
  sub ∈ active_of_member m st ↔
  is_active sub ∧ by_member sub = m ∧ ∃ k, subscriptions st !! k = Some sub.
Proof.
  unfold active_of_member.
  by rewrite !list_elem_of_filter, elem_of_records.
Qed.

Lemma elem_of_filter_Boolean {A B} (f : A → option B) (l : list A) y :
  y ∈ filter_Boolean (f <$> l) ↔ ∃ x, x ∈ l ∧ f x = Some y.
Proof.
  unfold filter_Boolean. rewrite list_elem_of_omap. split.
  - intros (o & Ho & Heq). simpl in Heq. subst o.
    apply list_elem_of_fmap in Ho as (x & Hx & Hin). eauto.
  - intros (x & Hin & Hx). exists (Some y). split; [|done].
    apply list_elem_of_fmap. eauto.
Qed.

Lemma length_filter_Boolean {A B} (f : A → option B) (l : list A) :
  length (filter_Boolean (f <$> l)) = length (filter (λ x, is_Some (f x)) l).
Proof.
  unfold filter_Boolean. induction l as [|x l IH]; [done|]. simpl.
  rewrite filter_cons. destruct (f x) as [y|] eqn:Hx; simpl.
  - f_equal. exact IH.
  - exact IH.
Qed.

(** Counting rows of a store through its list of records. *)
Lemma length_filter_records {R} (S : ObjectStore R) (P : R → Prop)
    `{∀ r, Decision (P r)} (m : gmap string R) :
  length (filter P (records S m)) = size (filter (λ kr, P kr.2) m).
Proof.
  unfold records. rewrite merge_sort_Permutation.
  induction m as [|k r m Hk IH] using map_ind.
  - by rewrite map_to_list_empty, map_filter_empty.
  - rewrite map_to_list_insert by done. rewrite fmap_cons, filter_cons.
    simpl. destruct (decide (P r)) as [HP|HP].
    + rewrite map_filter_insert_True by done.
      rewrite map_size_insert_None; [simpl; by rewrite IH|].
      apply map_lookup_filter_None. by left.
    + rewrite map_filter_insert_False by done.
      by rewrite delete_id.
Qed.

(** *** Counting the rows behind a joined view *)

Lemma length_filter_split {A} (Q : A → Prop) `{∀ x, Decision (Q x)} (l : list A) :
  length l = (length (filter Q l) + length (filter (λ x, ¬ Q x) l))%nat.
Proof.
  induction l as [|x l IH]; [done|]. rewrite !filter_cons.
  destruct (decide (Q x)) as [HQ|HQ].
  - rewrite decide_False by tauto. simpl. lia.
  - rewrite decide_True by done. simpl. lia.
Qed.

(** The active rows of one key [P] of an index, and the records [f] finds
    for them, against the subscriptions store. *)
Lemma joined_rows {B} (P : Subscription.t → Prop) `{∀ r, Decision (P r)}
    (f : Subscription.t → option B) (st : state) (rows : list Subscription.t) :
  rows = filter is_active
           (filter P (records subscriptionsStore (subscriptions st))) →
  (∀ sub, sub ∈ rows ↔
     ∃ k, subscriptions st !! k = Some sub ∧ P sub ∧ is_active sub) ∧
  length rows =
    size (filter (λ kr, P kr.2 ∧ is_active kr.2) (subscriptions st)) ∧
  (∀ y, y ∈ filter_Boolean (f <$> rows) ↔
     ∃ k sub, subscriptions st !! k = Some sub ∧ P sub ∧ is_active sub ∧
              f sub = Some y) ∧
  length (filter_Boolean (f <$> rows)) =
    size (filter (λ kr, P kr.2 ∧ is_active kr.2 ∧ is_Some (f kr.2))
            (subscriptions st)) ∧
  length rows =
    (length (filter_Boolean (f <$> rows)) +
     size (filter (λ kr, P kr.2 ∧ is_active kr.2 ∧ f kr.2 = None)
             (subscriptions st)))%nat ∧
  ((length (filter_Boolean (f <$> rows)) < length rows)%nat ↔
   ∃ k sub, subscriptions st !! k = Some sub ∧ P sub ∧ is_active sub ∧
            f sub = None).
Proof.
  intros ->.
  set (rows := filter is_active
                 (filter P (records subscriptionsStore (subscriptions st)))).
  assert (∀ sub, sub ∈ rows ↔
            ∃ k, subscriptions st !! k = Some sub ∧ P sub ∧ is_active sub)
    as Hrows.
  { intros sub. unfold rows.
    rewrite !list_elem_of_filter, elem_of_records. split.
    - intros (Hact & HP & k & Hk). by exists k.
    - intros (k & Hk & HP & Hact). split_and!; [done..|by exists k]. }
  assert (length (filter_Boolean (f <$> rows)) =
            size (filter (λ kr, P kr.2 ∧ is_active kr.2 ∧ is_Some (f kr.2))
                    (subscriptions st))) as Hfound.
  { rewrite length_filter_Boolean. unfold rows.
    rewrite !list_filter_filter, length_filter_records. f_equal.
    apply map_filter_ext. intros k r _. simpl. tauto. }
  assert (length (filter (λ sub, ¬ is_Some (f sub)) rows) =
            size (filter (λ kr, P kr.2 ∧ is_active kr.2 ∧ f kr.2 = None)
                    (subscriptions st))) as Hgone.
  { unfold rows. rewrite !list_filter_filter, length_filter_records. f_equal.
    apply map_filter_ext. intros k r _. simpl.
    rewrite eq_None_not_Some. tauto. }
  assert (length rows =
            (length (filter_Boolean (f <$> rows)) +
             size (filter (λ kr, P kr.2 ∧ is_active kr.2 ∧ f kr.2 = None)
                     (subscriptions st)))%nat) as Hsplit.
  { rewrite <- Hgone, length_filter_Boolean.
    apply (length_filter_split (λ sub, is_Some (f sub))). }
  split_and!; [exact Hrows| |  |exact Hfound|exact Hsplit|].
  - unfold rows. rewrite list_filter_filter, length_filter_records. f_equal.
    apply map_filter_ext. intros k r _. simpl. tauto.
  - intros y. rewrite elem_of_filter_Boolean. split.
    + intros (sub & (k & Hk & HP & Hact)%Hrows & Hy). by exists k, sub.
    + intros (k & sub & Hk & HP & Hact & Hy). exists sub.
      split; [apply Hrows; by exists k|done].
  - split.
    + intros Hlt.
      destruct (map_size_ne_0_lookup_1
                  (filter (λ kr, P kr.2 ∧ is_active kr.2 ∧ f kr.2 = None)
                     (subscriptions st))) as [k [sub Hsub]]; [lia|].
      apply map_lookup_filter_Some in Hsub as (Hk & HP & Hact & Hnone).
      by exists k, sub.
    + intros (k & sub & Hk & HP & Hact & Hnone).
      assert (size (filter (λ kr, P kr.2 ∧ is_active kr.2 ∧ f kr.2 = None)
                      (subscriptions st)) ≠ 0%nat); [|lia].
      apply (map_size_ne_0_lookup_2 _ k). exists sub.
      by apply map_lookup_filter_Some.
Qed.

(** ** The sample states are reachable *)

Lemma reachable_seeded : reachable seeded.
Proof. exact (reachable_step (Init sample_uuids sample_dates) fresh reachable_fresh). Qed.

Lemma reachable_with_alice : reachable with_alice.
Proof. exact (reachable_step (AddMember alice "m-1" 10) seeded reachable_seeded). Qed.

Lemma reachable_subscribed : reachable subscribed.
Proof.
  exact (reachable_step (SubscribeMemberToSport "m-1" "s-0" "sub-1" 20)
           with_alice reachable_with_alice).
Qed.

Lemma reachable_orphaned : reachable orphaned.
Proof. exact (reachable_step (DeleteMember "m-1") subscribed reachable_subscribed). Qed.

(** ** Properties of the service *)

(** C1.  What the code does when the pair (memberId, sportId) has a record
    with status 'cancelled': the check for an active subscription lets the
    call through, and [db.add] is then rejected by the unique index
    'by-member-sport'.  [subscribeMemberToSport] fails with ConstraintError and
    no record is created. *)
Theorem resubscribe_after_cancel_rejected (st : state) (m s : string)
    (uuid : string) (now : Date) (k : string) (r : Subscription.t) :
  connected st = true →
  consistent st →
  subscriptions st !! k = Some r →
  by_member_sport r = (m, s) →
  Subscription.status_ r = Subscription.cancelled →
  subscribeMemberToSport m s uuid now st = (Err ConstraintError, st).
Proof.
  intros Hc Hst Hr Hpair Hstatus. unfold subscribeMemberToSport.
  rewrite bind_ensureDB by done.
  erewrite bind_Ok by by eapply getSubscription_found.
  destruct r as [id mid sid date status created updated]; simpl in *.
  subst status. apply bind_Err.
  eapply db_add_collision; [exact Hr|]. simpl.
  apply bool_decide_eq_true. by rewrite Hpair.
Qed.

Lemma resubscribe_after_cancel_rejected_witness :
  subscribeMemberToSport "m-1" "s-0" "sub-2" 40 unsubscribed =
    (Err ConstraintError, unsubscribed).
Proof.
  apply (resubscribe_after_cancel_rejected unsubscribed "m-1" "s-0" "sub-2" 40
           "sub-1"
           (Subscription.mk "sub-1" "m-1" "s-0" 20 Subscription.cancelled 20 30));
    [reflexivity| |reflexivity..].
  apply (bool_decide_unpack _). vm_compute. exact I.
Defined.

(** C2.  No reachable state holds two subscription records with the same
    (memberId, sportId) and status 'active'.  And on a connected service whose
    store has no record for the pair (m, s), [subscribeMemberToSport(m, s)]
    with an unused UUID succeeds, an immediate second call fails with 'Member
    is already subscribed to this sport' (kind Conflict) and writes nothing,
    and afterwards exactly one key of the store holds an active record of the
    pair: the one created by the first call. *)
Theorem subscribe_twice :
  (∀ st, reachable st →
     ∀ k1 k2 r1 r2,
       subscriptions st !! k1 = Some r1 → subscriptions st !! k2 = Some r2 →
       by_member_sport r1 = by_member_sport r2 →
       is_active r1 → is_active r2 → k1 = k2) ∧
  (∀ st m s uuid now uuid' now',
     connected st = true →
     ¬ has_subscription m s st →
     subscriptions st !! uuid = None →
     ∃ st1,
       subscribeMemberToSport m s uuid now st =
         (Ok (subscriptionData uuid m s now), st1) ∧
       subscribeMemberToSport m s uuid' now' st1 = (Err AlreadySubscribed, st1) ∧
       kind_of AlreadySubscribed = Conflict ∧
       ∀ k, active_at m s k st1 ↔ k = uuid).
Proof.
  split.
  { intros st Hst k1 k2 r1 r2 H1 H2 Hpair _ _.
    eapply consistent_pair_unique; eauto using reachable_consistent. }
  intros st m s uuid now uuid' now' Hc Hno Hfree.
  assert (∀ k x, subscriptions st !! k = Some x → by_member_sport x ≠ (m, s))
    as Hnone.
  { intros k x Hx Hpair. apply Hno. by exists k, x. }
  eexists. split_and!; [| |done|].
  - unfold subscribeMemberToSport. rewrite bind_ensureDB by done.
    erewrite bind_Ok by by apply getSubscription_absent. cbv beta iota zeta.
    erewrite bind_Ok; [done|]. apply db_add_fresh; [done|].
    intros k x Hx. right. apply bool_decide_eq_false. apply (Hnone k x Hx).
  - simpl. unfold subscribeMemberToSport. rewrite bind_ensureDB by done.
    rewrite bind_Ok with (a := Some (subscriptionData uuid m s now))
                         (st' := replace subscriptionsStore
                            (<[uuid := subscriptionData uuid m s now]>
                               (subscriptions st)) st); [done|].
    rewrite getSubscription_connected by done. simpl.
    destruct (head _) as [r'|] eqn:Hh.
    + apply head_filter_Some in Hh as [Hpair [k' Hr']].
      apply lookup_insert_Some in Hr' as [[_ <-]|[_ Hr']]; [done|].
      by destruct (Hnone k' r' Hr').
    + rewrite head_filter_None in Hh.
      destruct (Hh uuid (subscriptionData uuid m s now));
        [apply lookup_insert_eq|done].
  - intros k. unfold active_at. simpl. split.
    + intros (r' & Hr' & Hpair & _).
      apply lookup_insert_Some in Hr' as [[? _]|[_ Hr']]; [done|].
      by destruct (Hnone k r' Hr').
    + intros ->. eexists. by rewrite lookup_insert_eq.
Qed.

Lemma subscribe_twice_witness :
  ∃ st1,
    subscribeMemberToSport "m-1" "s-0" "sub-1" 20 with_alice =
      (Ok (subscriptionData "sub-1" "m-1" "s-0" 20), st1) ∧
    subscribeMemberToSport "m-1" "s-0" "sub-2" 21 st1 =
      (Err AlreadySubscribed, st1).
Proof.
  destruct (proj2 subscribe_twice with_alice "m-1" "s-0" "sub-1" 20 "sub-2" 21)
    as (st1 & Hfirst & Hsecond & _).
  - reflexivity.
  - apply (bool_decide_unpack _). vm_compute. exact I.
  - reflexivity.
  - exists st1. split; [exact Hfirst|exact Hsecond].
Defined.

(** C3.  When [addMember] has created a member, a further [addMember] whose
    input carries the same e-mail address (whatever its other fields, UUID and
    time) fails with the storage medium's ConstraintError (kind Conflict) and
    writes nothing: the first member is still returned, unchanged, by
    [getMember] and is among the records of [getAllMembers]. *)
Theorem second_member_with_same_email (st st1 : state)
    (first second : Member.input) (uuid uuid' : string) (now now' : Date)
    (m1 : Member.t) :
  addMember first uuid now st = (Ok m1, st1) →
  Member.i_email second = Member.i_email first →
  addMember second uuid' now' st1 = (Err ConstraintError, st1) ∧
  kind_of ConstraintError = Conflict ∧
  m1 = memberData first uuid now ∧
  getMember (Member.id m1) st1 = (Ok (Some m1), st1) ∧
  ∃ all, getAllMembers st1 = (Ok all, st1) ∧ m1 ∈ all.
Proof.
  intros Hadd Hmail.
  assert (connected st1 = true ∧ m1 = memberData first uuid now ∧
          members st1 !! uuid = Some m1) as (Hc & -> & Hm1).
  { destruct st as [c sp me su]. revert Hadd. break_async; intros; simplify_eq.
    simpl. by rewrite lookup_insert_eq. }
  split_and!; [|done..| |].
  - by eapply addMember_duplicate_email.
  - rewrite getMember_connected by done. simpl. by rewrite Hm1.
  - eexists. split; [unfold_async; by rewrite Hc|].
    apply elem_of_records. eauto.
Qed.

Lemma second_member_with_same_email_witness :
  addMember bob "m-2" 11 with_alice = (Err ConstraintError, with_alice) ∧
  getMember "m-1" with_alice = (Ok (Some (memberData alice "m-1" 10)), with_alice).
Proof.
  destruct (second_member_with_same_email seeded with_alice alice bob
              "m-1" "m-2" 10 11 (memberData alice "m-1" 10))
    as (Hsecond & _ & _ & Hget & _); [reflexivity..|by split].
Defined.





(** C5.  On a connected service, [addSport] with an unused UUID stores and
    returns the input fields together with the assigned [id] and
    [createdAt = updatedAt = now], and [getSport] with the returned id yields
    that record; the same holds for [addMember] and [getMember] when no member
    has the e-mail address of the input. *)
Theorem add_then_get (st : state) (sport : Sport.input) (member : Member.input)
    (uuid uuid' : string) (now now' : Date) :
  connected st = true →
  sports st !! uuid = None →
  members st !! uuid' = None →
  (∀ k x, members st !! k = Some x → Member.email x ≠ Member.i_email member) →
  (∃ st1,
     addSport sport uuid now st = (Ok (sportData sport uuid now), st1) ∧
     getSport (Sport.id (sportData sport uuid now)) st1 =
       (Ok (Some (sportData sport uuid now)), st1)) ∧
  (∃ st2,
     addMember member uuid' now' st = (Ok (memberData member uuid' now'), st2) ∧
     getMember (Member.id (memberData member uuid' now')) st2 =
       (Ok (Some (memberData member uuid' now')), st2)) ∧
  sportData sport uuid now =
    Sport.mk uuid (Sport.i_name sport) (Sport.i_description sport)
      (Sport.i_category sport) (Sport.i_maxMembers sport) now now ∧
  memberData member uuid' now' =
    Member.mk uuid' (Member.i_firstName member) (Member.i_lastName member)
      (Member.i_email member) (Member.i_phone member)
      (Member.i_dateOfBirth member) (Member.i_address member)
      (Member.i_membershipDate member) (Member.i_status member) now' now'.
Proof.
  intros Hc Hs Hm Hmail. split_and!; [| |done..].
  - eexists. split; [by apply addSport_connected|].
    rewrite getSport_connected by done. simpl. by rewrite lookup_insert_eq.
  - eexists. split; [by apply addMember_connected|].
    rewrite getMember_connected by done. simpl. by rewrite lookup_insert_eq.
Qed.

Lemma add_then_get_witness :
  (∃ st1,
     addSport football "s-9" 40 seeded = (Ok (sportData football "s-9" 40), st1) ∧
     getSport "s-9" st1 = (Ok (Some (sportData football "s-9" 40)), st1)) ∧
  (∃ st2,
     addMember alice "m-1" 10 seeded = (Ok (memberData alice "m-1" 10), st2) ∧
     getMember "m-1" st2 = (Ok (Some (memberData alice "m-1" 10)), st2)).
Proof.
  destruct (add_then_get seeded football alice "s-9" "m-1" 40 10)
    as (Hsport & Hmember & _); [reflexivity..| |by split].
  intros k x Hx. exfalso. vm_compute in Hx. discriminate Hx.
Defined.

(** C6.  [deleteSport(id)] never changes the subscriptions collection, whatever
    the state and whether or not subscriptions refer to the sport; on a
    connected service it succeeds for every [id], and [getSport(id)] is absent
    afterwards. *)
Theorem deleteSport_keeps_subscriptions (id : string) (st : state) :
  subscriptions (deleteSport id st).2 = subscriptions st ∧
  (connected st = true →
   (deleteSport id st).1 = Ok () ∧
   getSport id (deleteSport id st).2 = (Ok None, (deleteSport id st).2)).
Proof.
  split.
  - unfold_async. by destruct (connected st).
  - intros Hc. unfold deleteSport. rewrite bind_ensureDB by done.
    split; [done|]. rewrite getSport_connected by done. simpl.
    by rewrite lookup_delete_eq.
Qed.

Lemma deleteSport_keeps_subscriptions_witness :
  subscriptions (deleteSport "s-0" subscribed).2 !! "sub-1" =
    Some (subscriptionData "sub-1" "m-1" "s-0" 20) ∧
  getSport "s-0" subscribed = (Ok (Some (sportData football "s-0" 0)), subscribed) ∧
  getSport "s-0" (deleteSport "s-0" subscribed).2 =
    (Ok None, (deleteSport "s-0" subscribed).2).
Proof.
  destruct (deleteSport_keeps_subscriptions "s-0" subscribed) as [Hsubs Hget].
  split_and!; [by rewrite Hsubs|reflexivity|].
  apply Hget. reflexivity.
Defined.

(** C7.  When the pair (m, s) has a subscription with status 'active',
    [cancelSubscription(m, s)] returns that record with status 'cancelled' and
    [updatedAt = now], every other field as before; the record stays in the
    store under its key, no other record, sport or member changes; and the
    view [getMemberWithSports(m)] taken afterwards is absent exactly when the
    member is, and otherwise lists no sport with id [s]. *)
Theorem cancel_active_subscription (st : state) (m s : string) (now : Date)
    (k : string) (r : Subscription.t) :
  connected st = true →
  consistent st →
  subscriptions st !! k = Some r →
  by_member_sport r = (m, s) →
  is_active r →
  ∃ st',
    cancelSubscription m s now st = (Ok (updatedSubscription r now), st') ∧
    updatedSubscription r now =
      Subscription.mk (Subscription.id r) (Subscription.memberId r)
        (Subscription.sportId r) (Subscription.subscriptionDate r)
        Subscription.cancelled (Subscription.createdAt r) now ∧
    subscriptions st' = <[k := updatedSubscription r now]> (subscriptions st) ∧
    subscriptions st' !! k = Some (updatedSubscription r now) ∧
    sports st' = sports st ∧ members st' = members st ∧
    match (getMemberWithSports m st').1 with
    | Ok (Some view) =>
        is_Some (members st !! m) ∧
        ∀ sport, sport ∈ MemberWithSports.sports view → Sport.id sport ≠ s
    | Ok None => members st !! m = None
    | Err _ => False
    end.
Proof.
  intros Hc Hst Hr Hpair Hact. eexists.
  split; [by eapply cancelSubscription_found|]. simpl.
  split_and!; [done..|by rewrite lookup_insert_eq|done|done|].
  rewrite getMemberWithSports_connected by done. simpl.
  destruct (members st !! m) as [member|]; simpl; [|done].
  split; [done|]. intros sport Hin Hid.
  apply elem_of_filter_Boolean in Hin as (sub & Hsub & Hsport).
  apply elem_of_active_of_member in Hsub as (Hsubact & Hmem & k' & Hk').
  simpl in *.
  assert (Subscription.sportId sub = s) as Hs.
  { erewrite <- (consistent_sport_id st _ sport); eauto. }
  eapply cancelled_pair_not_active; eauto.
  unfold by_member_sport. unfold by_member in Hmem. by rewrite Hmem, Hs.
Qed.

Lemma cancel_active_subscription_witness :
  ∃ st',
    cancelSubscription "m-1" "s-0" 30 subscribed =
      (Ok (updatedSubscription (subscriptionData "sub-1" "m-1" "s-0" 20) 30), st') ∧
    subscriptions st' !! "sub-1" =
      Some (Subscription.mk "sub-1" "m-1" "s-0" 20 Subscription.cancelled 20 30).
Proof.
  destruct (cancel_active_subscription subscribed "m-1" "s-0" 30 "sub-1"
              (subscriptionData "sub-1" "m-1" "s-0" 20))
    as (st' & Hcancel & _ & _ & Hkept & _).
  - reflexivity.
  - apply (bool_decide_unpack _). vm_compute. exact I.
  - reflexivity.
  - reflexivity.
  - reflexivity.
  - exists st'. split; [exact Hcancel|exact Hkept].
Defined.

(** C8.  When the store holds no subscription record for the pair
    (memberId, sportId), [cancelSubscription] on a connected service fails
    with 'Subscription not found' (kind NotFound) and changes nothing. *)
Theorem cancel_without_subscription (st : state) (m s : string) (now : Date) :
  connected st = true →
  ¬ has_subscription m s st →
  cancelSubscription m s now st = (Err SubscriptionNotFound, st) ∧
  kind_of SubscriptionNotFound = NotFound.
Proof.
  intros Hc Hno. split; [|done]. unfold cancelSubscription.
  rewrite bind_ensureDB by done.
  erewrite bind_Ok by by apply getSubscription_absent. done.
Qed.

Lemma cancel_without_subscription_witness :
  cancelSubscription "m-1" "s-1" 30 subscribed =
    (Err SubscriptionNotFound, subscribed).
Proof.
  apply (cancel_without_subscription subscribed "m-1" "s-1" 30); [reflexivity|].
  apply (bool_decide_unpack _). vm_compute. exact I.
Defined.

(** C9.  When the pair (m, s) has a subscription whose status is already
    'cancelled', [cancelSubscription(m, s)] succeeds again: it returns and
    stores the record with status 'cancelled' (as before) and
    [updatedAt = now], every other field and every other record as before. *)
Theorem cancel_cancelled_subscription (st : state) (m s : string) (now : Date)
    (k : string) (r : Subscription.t) :
  connected st = true →
  consistent st →
  subscriptions st !! k = Some r →
  by_member_sport r = (m, s) →
  Subscription.status_ r = Subscription.cancelled →
  ∃ st',
    cancelSubscription m s now st = (Ok (updatedSubscription r now), st') ∧
    Subscription.status_ (updatedSubscription r now) = Subscription.status_ r ∧
    Subscription.updatedAt (updatedSubscription r now) = now ∧
    updatedSubscription r now =
      Subscription.mk (Subscription.id r) (Subscription.memberId r)
        (Subscription.sportId r) (Subscription.subscriptionDate r)
        Subscription.cancelled (Subscription.createdAt r) now ∧
    subscriptions st' = <[k := updatedSubscription r now]> (subscriptions st) ∧
    sports st' = sports st ∧ members st' = members st.
Proof.
  intros Hc Hst Hr Hpair Hstatus. eexists.
  split; [by eapply cancelSubscription_found|]. simpl. by rewrite Hstatus.
Qed.

Lemma cancel_cancelled_subscription_witness :
  ∃ st',
    cancelSubscription "m-1" "s-0" 50 unsubscribed =
      (Ok (Subscription.mk "sub-1" "m-1" "s-0" 20 Subscription.cancelled 20 50), st').
Proof.
  destruct (cancel_cancelled_subscription unsubscribed "m-1" "s-0" 50 "sub-1"
              (Subscription.mk "sub-1" "m-1" "s-0" 20 Subscription.cancelled 20 30))
    as (st' & Hcancel & _).
  - reflexivity.
  - apply (bool_decide_unpack _). vm_compute. exact I.
  - reflexivity.
  - reflexivity.
  - reflexivity.
  - exists st'. exact Hcancel.
Defined.

(** C10.  For a sport [s] of the store, [getSportWithMembers(s)] returns the
    sport with: as [subscriptions] exactly the rows of the store with
    [sportId = s] and status 'active'; as [memberCount] their number,
    whether or not their members exist; as [members] exactly the members the
    store holds for those rows, as many as there are such rows with a stored
    member.  So [memberCount] is the length of [members] plus the number of
    active rows whose member is gone, and exceeds it exactly when there is
    such a row.  In the same way [getMemberWithSports(m)] lists the active
    rows of the member and exactly the sports the store holds for them, rows
    of deleted sports being dropped.  A reachable state exists in which
    [memberCount] exceeds the length of [members]. *)
Theorem memberCount_counts_active_rows :
  (∀ st s sport,
     connected st = true →
     sports st !! s = Some sport →
     ∃ view,
       getSportWithMembers s st = (Ok (Some view), st) ∧
       SportWithMembers.sport view = sport ∧
       (∀ sub, sub ∈ SportWithMembers.subscriptions view ↔
          ∃ k, subscriptions st !! k = Some sub ∧
               by_sport sub = s ∧ is_active sub) ∧
       SportWithMembers.memberCount view =
         size (filter (λ kr, by_sport kr.2 = s ∧ is_active kr.2)
                 (subscriptions st)) ∧
       (∀ member, member ∈ SportWithMembers.members view ↔
          ∃ k sub, subscriptions st !! k = Some sub ∧
                   by_sport sub = s ∧ is_active sub ∧
                   members st !! Subscription.memberId sub = Some member) ∧
       length (SportWithMembers.members view) =
         size (filter (λ kr, by_sport kr.2 = s ∧ is_active kr.2 ∧
                             is_Some (members st !! Subscription.memberId kr.2))
                 (subscriptions st)) ∧
       SportWithMembers.memberCount view =
         (length (SportWithMembers.members view) +
          size (filter (λ kr, by_sport kr.2 = s ∧ is_active kr.2 ∧
                              members st !! Subscription.memberId kr.2 = None)
                  (subscriptions st)))%nat ∧
       ((length (SportWithMembers.members view)
           < SportWithMembers.memberCount view)%nat ↔
        ∃ k sub, subscriptions st !! k = Some sub ∧
                 by_sport sub = s ∧ is_active sub ∧
                 members st !! Subscription.memberId sub = None)) ∧
  (∀ st m member,
     connected st = true →
     members st !! m = Some member →
     ∃ view,
       getMemberWithSports m st = (Ok (Some view), st) ∧
       MemberWithSports.member view = member ∧
       (∀ sub, sub ∈ MemberWithSports.subscriptions view ↔
          ∃ k, subscriptions st !! k = Some sub ∧
               by_member sub = m ∧ is_active sub) ∧
       (∀ sport, sport ∈ MemberWithSports.sports view ↔
          ∃ k sub, subscriptions st !! k = Some sub ∧
                   by_member sub = m ∧ is_active sub ∧
                   sports st !! Subscription.sportId sub = Some sport) ∧
       length (MemberWithSports.sports view) =
         size (filter (λ kr, by_member kr.2 = m ∧ is_active kr.2 ∧
                             is_Some (sports st !! Subscription.sportId kr.2))
                 (subscriptions st)) ∧
       length (MemberWithSports.subscriptions view) =
         (length (MemberWithSports.sports view) +
          size (filter (λ kr, by_member kr.2 = m ∧ is_active kr.2 ∧
                              sports st !! Subscription.sportId kr.2 = None)
                  (subscriptions st)))%nat) ∧
  (∃ st s view,
     reachable st ∧
     getSportWithMembers s st = (Ok (Some view), st) ∧
     (length (SportWithMembers.members view)
        < SportWithMembers.memberCount view)%nat).
Proof.
  split_and!.
  - intros st s sport Hc Hs. eexists.
    split; [by rewrite getSportWithMembers_connected, Hs|]. simpl.
    destruct (joined_rows (λ r, by_sport r = s)
                (λ sub, members st !! Subscription.memberId sub) st
                (active_of_sport s st) eq_refl)
      as (Hrows & Hcount & Hmembers & Hfound & Hsplit & Hlt).
    by split_and!.
  - intros st m member Hc Hm. eexists.
    split; [by rewrite getMemberWithSports_connected, Hm|]. simpl.
    destruct (joined_rows (λ r, by_member r = m)
                (λ sub, sports st !! Subscription.sportId sub) st
                (active_of_member m st) eq_refl)
      as (Hrows & Hcount & Hsports & Hfound & Hsplit & Hlt).
    by split_and!.
  - exists orphaned, "s-0",
      (SportWithMembers.mk (sportData football "s-0" 0) []
         [subscriptionData "sub-1" "m-1" "s-0" 20] 1).
    split; [apply reachable_orphaned|]. split; [reflexivity|]. simpl. lia.
Qed.

Lemma memberCount_counts_active_rows_witness :
  ∃ view,
    getSportWithMembers "s-0" orphaned = (Ok (Some view), orphaned) ∧
    SportWithMembers.memberCount view =
      size (filter (λ kr, by_sport kr.2 = "s-0" ∧ is_active kr.2)
              (subscriptions orphaned)) ∧
    (length (SportWithMembers.members view)
       < SportWithMembers.memberCount view)%nat.
Proof.
  destruct (proj1 memberCount_counts_active_rows orphaned "s-0"
              (sportData football "s-0" 0))
    as (view & Hview & _ & _ & Hcount & _ & _ & _ & Hlt).
  - reflexivity.
  - reflexivity.
  - exists view. split_and!; [exact Hview|exact Hcount|].
    apply Hlt. exists "sub-1", (subscriptionData "sub-1" "m-1" "s-0" 20).
    split_and!; reflexivity.
Defined.

(** ** Further properties of the service *)

(** X1.  In every state the service can reach, each record of the three stores
    is stored under its own [id], no two members have the same e-mail address,
    and no two subscriptions (whatever their status) have the same
    (memberId, sportId). *)
Theorem reachable_store_invariants (st : state) :
  reachable st →
  (∀ k r, sports st !! k = Some r → Sport.id r = k) ∧
  (∀ k r, members st !! k = Some r → Member.id r = k) ∧
  (∀ k r, subscriptions st !! k = Some r → Subscription.id r = k) ∧
  (∀ k1 k2 m1 m2,
     members st !! k1 = Some m1 → members st !! k2 = Some m2 →
     Member.email m1 = Member.email m2 → k1 = k2) ∧
  (∀ k1 k2 r1 r2,
     subscriptions st !! k1 = Some r1 → subscriptions st !! k2 = Some r2 →
     Subscription.memberId r1 = Subscription.memberId r2 →
     Subscription.sportId r1 = Subscription.sportId r2 → k1 = k2).
Proof.
  intros Hst%reachable_consistent. split_and!.
  - intros k r. by apply consistent_sport_id.
  - destruct Hst as (_ & (Hk & _) & _). exact Hk.
  - intros k r. by apply consistent_subscription_id.
  - intros k1 k2 m1 m2. by apply consistent_email_unique.
  - intros k1 k2 r1 r2 H1 H2 Hm Hs.
    eapply consistent_pair_unique; eauto. unfold by_member_sport. congruence.
Qed.

Lemma reachable_store_invariants_witness :
  subscriptions orphaned !! "sub-1" =
    Some (subscriptionData "sub-1" "m-1" "s-0" 20) ∧
  (∀ k r, subscriptions orphaned !! k = Some r → Subscription.id r = k).
Proof.
  split; [reflexivity|].
  apply (reachable_store_invariants orphaned).
  exact (reachable_step (DeleteMember "m-1") _
          (reachable_step (SubscribeMemberToSport "m-1" "s-0" "sub-1" 20) _
            (reachable_step (AddMember alice "m-1" 10) _
              (reachable_step (Init sample_uuids sample_dates) _
                reachable_fresh)))).
Defined.

(** X2.  While the service is not connected ([init] not yet called, or
    [close] called), every method other than [init] and [close] fails with
    'Database not initialized. Call init() first.' and leaves the state as it
    was. *)
Theorem not_connected_fails (o : op) (st : state) :
  connected st = false →
  uses_database o →
  run o st = (Err DatabaseNotInitialized, st) ∧
  kind_of DatabaseNotInitialized = NotInitialized.
Proof.
  intros Hc Ho. split; [|done].
  destruct o; simpl in *; try done;
    unfold getMemberWithSports, getSportWithMembers; unfold_async;
    by rewrite Hc.
Qed.

Lemma not_connected_fails_witness :
  run (AddSport football "s-9" 40) (close seeded).2 =
    (Err DatabaseNotInitialized, (close seeded).2).
Proof.
  apply (not_connected_fails (AddSport football "s-9" 40) (close seeded).2);
    [reflexivity|exact I].
Defined.

(** X3.  The methods that only read ([getSport], [getAllSports], [getMember],
    [getAllMembers], [getSubscription], [getMemberSubscriptions],
    [getSportSubscriptions], [getAllSubscriptions], [getMemberWithSports],
    [getSportWithMembers]) hand back the state unchanged, whether they succeed
    or fail. *)
Theorem queries_do_not_write (o : op) (st : state) :
  is_query o = true → (run o st).2 = st.
Proof.
  intros Ho. destruct o; try discriminate Ho; simpl; apply readonly_void.
  - apply readonly_getSport.
  - intros ?. by break_async.
  - apply readonly_getMember.
  - intros ?. by break_async.
  - apply readonly_getSubscription.
  - apply readonly_getMemberSubscriptions.
  - apply readonly_getSportSubscriptions.
  - intros ?. by break_async.
  - apply readonly_getMemberWithSports.
  - apply readonly_getSportWithMembers.
Qed.

Lemma queries_do_not_write_witness :
  (run (GetSportWithMembers "s-0") orphaned).2 = orphaned.
Proof.
  apply (queries_do_not_write (GetSportWithMembers "s-0") orphaned). reflexivity.
Defined.

(** *** Opening, seeding and closing *)

Section seeding.
Context (uuids : nat → string) (dates : nat → Date).

Lemma after_seed_lookup_other todo k (m : gmap string Sport.t) key :
  (∀ j, (k ≤ j < k + length todo)%nat → uuids j ≠ key) →
  after_seed todo k uuids dates m !! key = m !! key.
Proof.
  revert k m. induction todo as [|sport rest IH]; intros k m Hne; simpl; [done|].
  rewrite IH by (intros j Hj; apply Hne; simpl; lia).
  apply lookup_insert_ne, Hne. simpl; lia.
Qed.

Lemma NoDup_uuids_ne k n i j :
  NoDup (uuids <$> seq k n) →
  (k ≤ i < k + n)%nat → (k ≤ j < k + n)%nat → i ≠ j → uuids i ≠ uuids j.
Proof.
  intros Hnd Hi Hj Hij Heq. apply Hij.
  assert ((uuids <$> seq k n) !! (i - k)%nat = Some (uuids i)) as H1.
  { rewrite list_lookup_fmap, lookup_seq_lt by lia. simpl. f_equal. f_equal. lia. }
  assert ((uuids <$> seq k n) !! (j - k)%nat = Some (uuids j)) as H2.
  { rewrite list_lookup_fmap, lookup_seq_lt by lia. simpl. f_equal. f_equal. lia. }
  rewrite <- Heq in H2.
  pose proof (NoDup_lookup _ _ _ _ Hnd H1 H2). lia.
Qed.

Lemma after_seed_lookup todo k (m : gmap string Sport.t) j sport :
  NoDup (uuids <$> seq k (length todo)) →
  todo !! j = Some sport →
  after_seed todo k uuids dates m !! uuids (k + j) =
    Some (sportData sport (uuids (k + j)) (dates (k + j))).
Proof.
  revert k m j. induction todo as [|first rest IH]; intros k m j Hnd Hj;
    [done|]. simpl.
  destruct j as [|j]; simpl in Hj.
  - simplify_eq. rewrite Nat.add_0_r.
    rewrite after_seed_lookup_other; [apply lookup_insert_eq|].
    intros i Hi. eapply NoDup_uuids_ne; [exact Hnd|simpl; lia..].
  - replace (k + S j)%nat with (S k + j)%nat by lia.
    apply IH; [|done]. simpl in Hnd. by apply NoDup_cons in Hnd as [_ ?].
Qed.

Lemma after_seed_size todo k (m : gmap string Sport.t) :
  NoDup (uuids <$> seq k (length todo)) →
  (∀ j, (k ≤ j < k + length todo)%nat → m !! uuids j = None) →
  size (after_seed todo k uuids dates m) = (size m + length todo)%nat.
Proof.
  revert k m. induction todo as [|first rest IH]; intros k m Hnd Hfree; simpl;
    [lia|].
  rewrite IH.
  - rewrite map_size_insert_None by (apply Hfree; simpl; lia). lia.
  - simpl in Hnd. by apply NoDup_cons in Hnd as [_ ?].
  - intros j Hj. rewrite lookup_insert_ne; [apply Hfree; simpl; lia|].
    eapply NoDup_uuids_ne; [exact Hnd|simpl; lia..].
Qed.

Lemma seed_loop_result todo k st :
  connected st = true →
  NoDup (uuids <$> seq k (length todo)) →
  (∀ j, (k ≤ j < k + length todo)%nat → sports st !! uuids j = None) →
  seed_loop todo k uuids dates st =
    (Ok (), replace sportsStore (after_seed todo k uuids dates (sports st)) st).
Proof.
  revert k st. induction todo as [|sport rest IH]; intros k st Hc Hnd Hfree.
  - destruct st. simpl in *. by subst.
  - cbn [seed_loop after_seed].
    erewrite bind_Ok by (apply addSport_connected; [done|apply Hfree; simpl; lia]).
    rewrite IH; [done|done| |].
    + simpl in Hnd. by apply NoDup_cons in Hnd as [_ ?].
    + intros j Hj. simpl. rewrite lookup_insert_ne; [apply Hfree; simpl; lia|].
      eapply NoDup_uuids_ne; [exact Hnd|simpl; lia..].
Qed.
End seeding.

(** X4.  [init] on a database whose sports store is empty, with pairwise
    distinct UUIDs, connects the service and stores exactly the five starter
    sports, the [j]-th under the [j]-th UUID with the [j]-th date as
    [createdAt] and [updatedAt]; members and subscriptions are not touched. *)
Theorem init_seeds_empty_store (uuids : nat → string) (dates : nat → Date)
    (st : state) :
  sports st = ∅ →
  distinct_uuids (Init uuids dates) →
  ∃ st',
    init uuids dates st = (Ok (), st') ∧
    connected st' = true ∧
    members st' = members st ∧ subscriptions st' = subscriptions st ∧
    size (sports st') = 5%nat ∧
    (∀ j sport, initialSports !! j = Some sport →
       sports st' !! uuids j = Some (sportData sport (uuids j) (dates j))) ∧
    ∃ all, getAllSports st' = (Ok all, st') ∧ length all = 5%nat.
Proof.
  intros Hempty Hnd. unfold distinct_uuids in Hnd.
  assert (init uuids dates st =
            (Ok (), mk_state true
                      (after_seed initialSports 0 uuids dates ∅)
                      (members st) (subscriptions st))) as Hinit.
  { unfold init. erewrite bind_Ok by reflexivity. unfold seedInitialData.
    erewrite bind_Ok by reflexivity.
    rewrite decide_True by (simpl; by rewrite length_records, Hempty).
    rewrite seed_loop_result; [by simpl; rewrite Hempty|done|done|].
    intros j _. simpl. by rewrite Hempty. }
  eexists. split; [exact Hinit|]. simpl.
  assert (size (after_seed initialSports 0 uuids dates ∅) = 5%nat) as Hsize.
  { rewrite after_seed_size; [done|done|]. intros j _. apply lookup_empty. }
  split_and!; [done..| |].
  - intros j sport Hj. by apply (after_seed_lookup uuids dates initialSports 0).
  - eexists. split; [reflexivity|]. simpl. by rewrite length_records.
Qed.

Lemma init_seeds_empty_store_witness :
  ∃ st',
    init sample_uuids sample_dates fresh = (Ok (), st') ∧
    sports st' !! "s-2" =
      Some (Sport.mk "s-2" "Tennis" "Individual or doubles tennis"
              "Racquet Sports" None 2 2).
Proof.
  destruct (init_seeds_empty_store sample_uuids sample_dates fresh)
    as (st' & Hinit & _ & _ & _ & _ & Hlookup & _).
  - reflexivity.
  - apply (bool_decide_unpack _). vm_compute. exact I.
  - exists st'. split; [exact Hinit|].
    exact (Hlookup 2%nat
             (Sport.mk_input "Tennis" "Individual or doubles tennis"
                "Racquet Sports" None) eq_refl).
Defined.

(** X5.  [init] on a database that already holds a sport seeds nothing: it
    only connects.  Hence [close] followed by [init] gives back the connected
    state: the records outlast the connection. *)
Theorem init_keeps_existing_sports (uuids : nat → string) (dates : nat → Date)
    (st : state) :
  sports st ≠ ∅ →
  init uuids dates st =
    (Ok (), mk_state true (sports st) (members st) (subscriptions st)) ∧
  (connected st = true → init uuids dates (close st).2 = (Ok (), st)).
Proof.
  intros Hne.
  assert (∀ st, sports st ≠ ∅ →
            init uuids dates st =
              (Ok (), mk_state true (sports st) (members st) (subscriptions st)))
    as Hinit.
  { clear. intros st Hne. unfold init. erewrite bind_Ok by reflexivity.
    unfold seedInitialData. erewrite bind_Ok by reflexivity.
    rewrite decide_False; [done|]. simpl. rewrite length_records.
    by intros ?%map_size_empty_inv. }
  split; [by apply Hinit|]. intros Hc.
  rewrite Hinit by done. destruct st; simpl in *. by subst.
Qed.

Lemma init_keeps_existing_sports_witness :
  init sample_uuids sample_dates (close subscribed).2 = (Ok (), subscribed).
Proof.
  apply (init_keeps_existing_sports sample_uuids sample_dates subscribed);
    [|reflexivity].
  intros Hempty.
  assert (sports subscribed !! "s-0" = None) as Hnone
    by (rewrite Hempty; apply lookup_empty).
  vm_compute in Hnone. discriminate Hnone.
Defined.

(** *** Updating *)

Lemma db_put_collision {R} (S : ObjectStore R) r st k x :
  content S st !! k = Some x → k ≠ keyPath S r → collide S x r = true →
  db_put S r st = (Err ConstraintError, st).
Proof.
  intros Hx Hk Hcol. unfold db_put. rewrite decide_False; [done|].
  intros Hadm. destruct (Hadm k x Hx) as [?|Hno]; congruence.
Qed.

Lemma consistent_member_id st k r :
  consistent st → members st !! k = Some r → Member.id r = k.
Proof. intros (_ & (Hk & _) & _) Hr. apply (Hk k r Hr). Qed.

(** X6.  [updateSport] and [updateMember] with an id that is not in the store
    fail with 'Sport not found' (resp. 'Member not found'), kind NotFound, and
    write nothing. *)
Theorem update_missing_not_found (st : state) (id id' : string)
    (updates : Sport.updates) (updates' : Member.updates) (now : Date) :
  connected st = true →
  sports st !! id = None →
  members st !! id' = None →
  updateSport id updates now st = (Err SportNotFound, st) ∧
  updateMember id' updates' now st = (Err MemberNotFound, st) ∧
  kind_of SportNotFound = NotFound ∧ kind_of MemberNotFound = NotFound.
Proof.
  intros Hc Hs Hm. split_and!; [| |done..].
  - unfold updateSport. rewrite bind_ensureDB by done.
    erewrite bind_Ok by reflexivity. simpl. by rewrite Hs.
  - unfold updateMember. rewrite bind_ensureDB by done.
    erewrite bind_Ok by reflexivity. simpl. by rewrite Hm.
Qed.

Lemma update_missing_not_found_witness :
  updateSport "s-9" (Sport.mk_updates (Some "Rugby") None None None None) 50
    subscribed = (Err SportNotFound, subscribed) ∧
  updateMember "m-9"
    (Member.mk_updates None None None (Some "555") None None None None None) 50
    subscribed = (Err MemberNotFound, subscribed).
Proof.
  destruct (update_missing_not_found subscribed "s-9" "m-9"
              (Sport.mk_updates (Some "Rugby") None None None None)
              (Member.mk_updates None None None (Some "555") None None None
                 None None) 50)
    as (Hs & Hm & _); [reflexivity..|by split].
Defined.

(** X7.  [updateSport] on a stored sport always succeeds: the given fields
    replace the stored ones, [id] and [createdAt] are kept, [updatedAt] is
    [now] even when the updates carry an [updatedAt] of their own;
    [getSport(id)] then returns the merged record, and no other sport, member
    or subscription changes. *)
Theorem updateSport_then_get (st : state) (id : string) (sport : Sport.t)
    (updates : Sport.updates) (now : Date) :
  connected st = true →
  consistent st →
  sports st !! id = Some sport →
  ∃ st',
    updateSport id updates now st = (Ok (updatedSport sport updates now), st') ∧
    Sport.id (updatedSport sport updates now) = id ∧
    Sport.createdAt (updatedSport sport updates now) = Sport.createdAt sport ∧
    Sport.updatedAt (updatedSport sport updates now) = now ∧
    Sport.name (updatedSport sport updates now) =
      default (Sport.name sport) (Sport.u_name updates) ∧
    getSport id st' = (Ok (Some (updatedSport sport updates now)), st') ∧
    (∀ k, k ≠ id → sports st' !! k = sports st !! k) ∧
    members st' = members st ∧ subscriptions st' = subscriptions st.
Proof.
  intros Hc Hst Hs.
  assert (Sport.id sport = id) as Hid by by eapply consistent_sport_id.
  eexists. split.
  { unfold updateSport. rewrite bind_ensureDB by done.
    erewrite bind_Ok by reflexivity. simpl. rewrite Hs.
    erewrite bind_Ok; [done|]. apply db_put_admissible, sports_admissible. }
  simpl. rewrite Hid. split_and!; [done..| | |done|done].
  - rewrite getSport_connected by done. simpl. by rewrite lookup_insert_eq.
  - intros k Hk. by rewrite lookup_insert_ne.
Qed.

Lemma updateSport_then_get_witness :
  ∃ st',
    updateSport "s-0" (Sport.mk_updates None None None (Some (Some 22)) (Some 7))
      50 subscribed =
      (Ok (Sport.mk "s-0" "Football" "Association football" "Team Sports"
             (Some 22) 0 50), st').
Proof.
  destruct (updateSport_then_get subscribed "s-0" (sportData football "s-0" 0)
              (Sport.mk_updates None None None (Some (Some 22)) (Some 7)) 50)
    as (st' & Hupdate & _).
  - reflexivity.
  - apply (bool_decide_unpack _). vm_compute. exact I.
  - reflexivity.
  - exists st'. exact Hupdate.
Defined.

(** X8.  [updateMember] that sets the e-mail address to the address of
    another member is rejected by the unique index 'by-email': it fails with
    ConstraintError (kind Conflict) and writes nothing. *)
Theorem updateMember_duplicate_email (st : state) (id k : string)
    (member other : Member.t) (updates : Member.updates) (now : Date) :
  connected st = true →
  consistent st →
  members st !! id = Some member →
  members st !! k = Some other →
  k ≠ id →
  Member.u_email updates = Some (Member.email other) →
  updateMember id updates now st = (Err ConstraintError, st) ∧
  kind_of ConstraintError = Conflict.
Proof.
  intros Hc Hst Hm Ho Hk Hmail. split; [|done].
  assert (Member.id member = id) as Hid by by eapply consistent_member_id.
  unfold updateMember. rewrite bind_ensureDB by done.
  erewrite bind_Ok by reflexivity. simpl. rewrite Hm.
  apply bind_Err. eapply db_put_collision; [exact Ho|simpl; congruence|].
  simpl. apply bool_decide_eq_true. unfold by_email. simpl. by rewrite Hmail.
Qed.

(** X9.  [updateMember] on a stored member succeeds whenever no other member
    has the e-mail address the updates give (in particular when they give
    none): a member never collides with its own address.  [id] and
    [createdAt] are kept, [updatedAt] is [now], [getMember(id)] returns the
    merged record, and nothing else changes. *)
Theorem updateMember_then_get (st : state) (id : string) (member : Member.t)
    (updates : Member.updates) (now : Date) :
  connected st = true →
  consistent st →
  members st !! id = Some member →
  (∀ e, Member.u_email updates = Some e →
     map_Forall (λ k x, k = id ∨ Member.email x ≠ e) (members st)) →
  ∃ st',
    updateMember id updates now st =
      (Ok (updatedMember member updates now), st') ∧
    Member.id (updatedMember member updates now) = id ∧
    Member.createdAt (updatedMember member updates now) =
      Member.createdAt member ∧
    Member.updatedAt (updatedMember member updates now) = now ∧
    getMember id st' = (Ok (Some (updatedMember member updates now)), st') ∧
    (∀ k, k ≠ id → members st' !! k = members st !! k) ∧
    sports st' = sports st ∧ subscriptions st' = subscriptions st.
Proof.
  intros Hc Hst Hm Hmail.
  assert (Member.id member = id) as Hid by by eapply consistent_member_id.
  eexists. split.
  { unfold updateMember. rewrite bind_ensureDB by done.
    erewrite bind_Ok by reflexivity. simpl. rewrite Hm.
    erewrite bind_Ok; [done|]. apply db_put_admissible.
    intros k x Hx. simpl. rewrite Hid.
    destruct (decide (k = id)) as [->|Hne]; [by left|right].
    apply bool_decide_eq_false. unfold by_email. simpl.
    destruct (Member.u_email updates) as [e|] eqn:He; simpl.
    - by destruct (Hmail e eq_refl k x Hx).
    - intros Heq. apply Hne. by eapply consistent_email_unique. }
  simpl. rewrite Hid. split_and!; [done..| | |done|done].
  - rewrite getMember_connected by done. simpl. by rewrite lookup_insert_eq.
  - intros k Hk. by rewrite lookup_insert_ne.
Qed.

Lemma updateMember_duplicate_email_witness :
  updateMember "m-2"
    (Member.mk_updates None None (Some "a@b.com") None None None None None None)
    60 two_members = (Err ConstraintError, two_members).
Proof.
  apply (updateMember_duplicate_email two_members "m-2" "m-1"
           (memberData carol "m-2" 25) (memberData alice "m-1" 10)
           (Member.mk_updates None None (Some "a@b.com") None None None None
              None None) 60).
  - reflexivity.
  - apply (bool_decide_unpack _). vm_compute. exact I.
  - reflexivity.
  - reflexivity.
  - discriminate.
  - reflexivity.
Defined.

Lemma updateMember_then_get_witness :
  ∃ st',
    updateMember "m-1"
      (Member.mk_updates None None (Some "a@b.com") (Some "555-0111") None None
         None (Some Member.inactive) None) 60 two_members =
      (Ok (Member.mk "m-1" "Alice" "Archer" "a@b.com" "555-0111" 0
             "1 Main Street" 1000 Member.inactive 10 60), st').
Proof.
  destruct (updateMember_then_get two_members "m-1" (memberData alice "m-1" 10)
              (Member.mk_updates None None (Some "a@b.com") (Some "555-0111")
                 None None None (Some Member.inactive) None) 60)
    as (st' & Hupdate & _).
  - reflexivity.
  - apply (bool_decide_unpack _). vm_compute. exact I.
  - reflexivity.
  - intros e [= <-]. apply (bool_decide_unpack _). vm_compute. exact I.
  - exists st'. exact Hupdate.
Defined.

(** *** Deleting and clearing *)

(** X10.  [deleteSport] and [deleteMember] with an id that is not in the store
    succeed and change nothing: deleting is not an error when there is nothing
    to delete. *)
Theorem delete_absent_is_noop (st : state) (id id' : string) :
  connected st = true →
  sports st !! id = None →
  members st !! id' = None →
  deleteSport id st = (Ok (), st) ∧ deleteMember id' st = (Ok (), st).
Proof.
  intros Hc Hs Hm. unfold deleteSport, deleteMember.
  rewrite !bind_ensureDB by done. unfold db_delete. simpl.
  rewrite !delete_id by done. by destruct st.
Qed.

Lemma delete_absent_is_noop_witness :
  deleteSport "s-9" subscribed = (Ok (), subscribed) ∧
  deleteMember "m-9" subscribed = (Ok (), subscribed).
Proof.
  apply (delete_absent_is_noop subscribed "s-9" "m-9"); reflexivity.
Defined.

(** X11.  [deleteMember(id)] of a stored member succeeds without touching
    sports or subscriptions (its subscriptions stay, dangling); afterwards
    [getMember(id)] and [getMemberWithSports(id)] are absent, and the e-mail
    address is free again: [addMember] with that address and an unused UUID
    (or the deleted id itself) succeeds. *)
Theorem deleteMember_frees_email (st : state) (id : string) (member : Member.t)
    (again : Member.input) (uuid : string) (now : Date) :
  connected st = true →
  consistent st →
  members st !! id = Some member →
  Member.i_email again = Member.email member →
  members st !! uuid = None ∨ uuid = id →
  ∃ st1 st2,
    deleteMember id st = (Ok (), st1) ∧
    sports st1 = sports st ∧ subscriptions st1 = subscriptions st ∧
    getMember id st1 = (Ok None, st1) ∧
    getMemberWithSports id st1 = (Ok None, st1) ∧
    addMember again uuid now st1 = (Ok (memberData again uuid now), st2) ∧
    getMember uuid st2 = (Ok (Some (memberData again uuid now)), st2).
Proof.
  intros Hc Hst Hm Hmail Huuid.
  exists (replace membersStore (delete id (members st)) st). eexists.
  split; [unfold deleteMember; by rewrite bind_ensureDB|].
  split_and!; [done|done| | | |].
  - rewrite getMember_connected by done. simpl. by rewrite lookup_delete_eq.
  - rewrite getMemberWithSports_connected by done. simpl.
    by rewrite lookup_delete_eq.
  - apply addMember_connected; [done| |]; simpl.
    + destruct Huuid as [?| ->]; [|apply lookup_delete_eq].
      apply lookup_delete_None. by right.
    + intros k x [Hk Hx]%lookup_delete_Some Heq. apply Hk.
      eapply consistent_email_unique; eauto. congruence.
  - rewrite getMember_connected by done. simpl. by rewrite lookup_insert_eq.
Qed.

Lemma deleteMember_frees_email_witness :
  ∃ st1 st2,
    deleteMember "m-1" subscribed = (Ok (), st1) ∧
    addMember bob "m-3" 70 st1 = (Ok (memberData bob "m-3" 70), st2).
Proof.
  destruct (deleteMember_frees_email subscribed "m-1" (memberData alice "m-1" 10)
              bob "m-3" 70)
    as (st1 & st2 & Hdel & _ & _ & _ & _ & Hadd & _).
  - reflexivity.
  - apply (bool_decide_unpack _). vm_compute. exact I.
  - reflexivity.
  - reflexivity.
  - left. reflexivity.
  - exists st1, st2. split; [exact Hdel|exact Hadd].
Defined.

Lemma records_empty {R} (S : ObjectStore R) : records S ∅ = [].
Proof. unfold records. by rewrite map_to_list_empty. Qed.

(** X12.  [clearAllData] on a connected service empties the three stores and
    keeps the connection: [getAllSports], [getAllMembers] and
    [getAllSubscriptions] then return empty lists, and a later [init] (with
    distinct UUIDs) seeds the starter sports again. *)
Theorem clearAllData_empties (st : state) (uuids : nat → string)
    (dates : nat → Date) :
  connected st = true →
  distinct_uuids (Init uuids dates) →
  ∃ st',
    clearAllData st = (Ok (), st') ∧
    st' = mk_state true ∅ ∅ ∅ ∧
    getAllSports st' = (Ok [], st') ∧
    getAllMembers st' = (Ok [], st') ∧
    getAllSubscriptions st' = (Ok [], st') ∧
    size (sports (init uuids dates st').2) = length initialSports.
Proof.
  intros Hc Hnd. exists (mk_state true ∅ ∅ ∅).
  split; [destruct st; simpl in *; subst; reflexivity|].
  split_and!; [done|unfold_async; by rewrite records_empty..|].
  assert (size (after_seed initialSports 0 uuids dates ∅) =
            length initialSports) as Hsize.
  { rewrite after_seed_size; [done|done|]. intros j _. apply lookup_empty. }
  unfold init. erewrite bind_Ok by reflexivity. unfold seedInitialData.
  erewrite bind_Ok by reflexivity.
  rewrite decide_True by (simpl; by rewrite records_empty).
  rewrite seed_loop_result; [exact Hsize|done|done|].
  intros j _. apply lookup_empty.
Qed.

Lemma clearAllData_empties_witness :
  ∃ st',
    clearAllData two_members = (Ok (), st') ∧ getAllMembers st' = (Ok [], st').
Proof.
  destruct (clearAllData_empties two_members sample_uuids sample_dates)
    as (st' & Hclear & _ & _ & Hmembers & _).
  - reflexivity.
  - apply (bool_decide_unpack _). vm_compute. exact I.
  - exists st'. split; [exact Hclear|exact Hmembers].
Defined.

(** *** Adding *)



Lemma records_insert {R} (S : ObjectStore R) (m : gmap string R) k r :
  m !! k = None → records S (<[k := r]> m) ≡ₚ r :: records S m.
Proof.
  intros Hk. unfold records. rewrite !merge_sort_Permutation.
  by rewrite map_to_list_insert.
Qed.

(** X14.  After a successful [addSport], [getAllSports] returns the new record
    together with exactly the records it returned before (in some order), so
    one more than before; likewise [addMember] and [getAllMembers]. *)
Theorem add_then_getAll (st : state) (sport : Sport.input)
    (member : Member.input) (uuid uuid' : string) (now : Date)
    (st1 st2 : state) (s : Sport.t) (m : Member.t) :
  addSport sport uuid now st = (Ok s, st1) →
  addMember member uuid' now st = (Ok m, st2) →
  ∃ sports0 sports1 members0 members2,
    getAllSports st = (Ok sports0, st) ∧
    getAllSports st1 = (Ok sports1, st1) ∧
    sports1 ≡ₚ s :: sports0 ∧
    getAllMembers st = (Ok members0, st) ∧
    getAllMembers st2 = (Ok members2, st2) ∧
    members2 ≡ₚ m :: members0 ∧
    length sports1 = S (length sports0) ∧
    length members2 = S (length members0).
Proof.
  intros Hs Hm.
  assert (connected st = true ∧ sports st !! uuid = None ∧
          st1 = replace sportsStore (<[uuid := s]> (sports st)) st)
    as (Hc & Hfree & ->).
  { destruct st as [c sp me su]. revert Hs. break_async; intros; by simplify_eq. }
  assert (members st !! uuid' = None ∧
          st2 = replace membersStore (<[uuid' := m]> (members st)) st)
    as (Hfree' & ->).
  { destruct st as [c sp me su]. revert Hm. break_async; intros; by simplify_eq. }
  do 4 eexists.
  split_and!; [unfold_async; by rewrite Hc| unfold_async; by rewrite Hc|
               |unfold_async; by rewrite Hc| unfold_async; by rewrite Hc| | |].
  - by apply records_insert.
  - by apply records_insert.
  - simpl. by rewrite records_insert.
  - simpl. by rewrite records_insert.
Qed.

Lemma add_then_getAll_witness :
  ∃ sports0 sports1,
    getAllSports seeded = (Ok sports0, seeded) ∧
    getAllSports (addSport football "s-9" 40 seeded).2 =
      (Ok sports1, (addSport football "s-9" 40 seeded).2) ∧
    length sports1 = S (length sports0).
Proof.
  destruct (add_then_getAll seeded football alice "s-9" "m-1" 40
              (addSport football "s-9" 40 seeded).2
              (addMember alice "m-1" 40 seeded).2
              (sportData football "s-9" 40) (memberData alice "m-1" 40))
    as (sports0 & sports1 & _ & _ & H0 & H1 & _ & _ & _ & _ & Hlen & _).
  - reflexivity.
  - reflexivity.
  - exists sports0, sports1. split_and!; [exact H0|exact H1|exact Hlen].
Defined.

(** *** Subscriptions and the joined views *)

(** X15.  On a connected, consistent store [getSubscription(m, s)] returns the
    record of the pair whatever its status, and is absent exactly when the
    store has no record for the pair. *)
Theorem getSubscription_by_pair (st : state) (m s : string) :
  connected st = true →
  consistent st →
  ∃ found,
    getSubscription m s st = (Ok found, st) ∧
    (∀ r, found = Some r ↔
          ∃ k, subscriptions st !! k = Some r ∧ by_member_sport r = (m, s)) ∧
    (found = None ↔ ¬ has_subscription m s st).
Proof.
  intros Hc Hst. eexists. split; [by apply getSubscription_connected|].
  destruct (head _) as [r'|] eqn:Hh.
  - apply head_filter_Some in Hh as [Hpair [k' Hr']]. split.
    + intros r. split.
      * intros [= <-]. eauto.
      * intros (k & Hr & Hpair'). f_equal.
        assert (k' = k) as -> by (eapply consistent_pair_unique; eauto; congruence).
        congruence.
    + split; [done|]. intros Hno. destruct Hno. by exists k', r'.
  - rewrite head_filter_None in Hh. split.
    + intros r. split; [done|]. intros (k & Hr & Hpair). by destruct (Hh k r).
    + split; [|done]. intros _ (k & r & Hr & Hpair). by destruct (Hh k r).
Qed.

Lemma getSubscription_by_pair_witness :
  ∃ found,
    getSubscription "m-1" "s-0" unsubscribed = (Ok found, unsubscribed) ∧
    found = Some (Subscription.mk "sub-1" "m-1" "s-0" 20 Subscription.cancelled
                    20 30).
Proof.
  destruct (getSubscription_by_pair unsubscribed "m-1" "s-0")
    as (found & Hget & Hsome & _).
  - reflexivity.
  - apply (bool_decide_unpack _). vm_compute. exact I.
  - exists found. split; [exact Hget|]. apply Hsome.
    exists "sub-1". split; reflexivity.
Defined.

(** X16.  [subscribeMemberToSport] reads and writes the subscriptions store
    only: it never looks a member or a sport up.  Two connected states with
    the same subscriptions give the same result and the same new
    subscriptions, and sports and members stay as they were; so a
    subscription for ids that no member or sport has is created like any
    other. *)
Theorem subscribe_ignores_members_and_sports (st st' : state) (m s : string)
    (uuid : string) (now : Date) :
  connected st = connected st' →
  subscriptions st = subscriptions st' →
  (subscribeMemberToSport m s uuid now st).1 =
    (subscribeMemberToSport m s uuid now st').1 ∧
  subscriptions (subscribeMemberToSport m s uuid now st).2 =
    subscriptions (subscribeMemberToSport m s uuid now st').2 ∧
  sports (subscribeMemberToSport m s uuid now st).2 = sports st ∧
  members (subscribeMemberToSport m s uuid now st).2 = members st.
Proof.
  intros Hc Hsubs. destruct st as [c sp me su], st' as [c' sp' me' su'].
  simpl in *. subst c' su'. by break_async.
Qed.

Lemma subscribe_ignores_members_and_sports_witness :
  (subscribeMemberToSport "nobody" "nothing" "sub-7" 90 two_members).1 =
    Ok (subscriptionData "sub-7" "nobody" "nothing" 90) ∧
  (subscribeMemberToSport "nobody" "nothing" "sub-7" 90 subscribed).1 =
    Ok (subscriptionData "sub-7" "nobody" "nothing" 90).
Proof.
  destruct (subscribe_ignores_members_and_sports two_members subscribed
              "nobody" "nothing" "sub-7" 90) as (Hres & _); [reflexivity..|].
  split; [|rewrite <- Hres]; reflexivity.
Defined.

(** X17.  When the pair (m, s) already has a record with status 'active',
    [subscribeMemberToSport(m, s)] fails with 'Member is already subscribed to
    this sport' (kind Conflict) and writes nothing, whatever UUID and time it
    is called with. *)
Theorem subscribe_active_pair_conflict (st : state) (m s : string)
    (uuid : string) (now : Date) (k : string) (r : Subscription.t) :
  connected st = true →
  consistent st →
  subscriptions st !! k = Some r →
  by_member_sport r = (m, s) →
  is_active r →
  subscribeMemberToSport m s uuid now st = (Err AlreadySubscribed, st) ∧
  kind_of AlreadySubscribed = Conflict.
Proof.
  intros Hc Hst Hr Hpair Hact. split; [|done]. unfold subscribeMemberToSport.
  rewrite bind_ensureDB by done.
  erewrite bind_Ok by by eapply getSubscription_found.
  destruct r as [id mid sid date status created updated].
  unfold is_active in Hact. simpl in Hact. by subst status.
Qed.

Lemma subscribe_active_pair_conflict_witness :
  subscribeMemberToSport "m-1" "s-0" "sub-8" 95 two_members =
    (Err AlreadySubscribed, two_members).
Proof.
  apply (subscribe_active_pair_conflict two_members "m-1" "s-0" "sub-8" 95
           "sub-1" (subscriptionData "sub-1" "m-1" "s-0" 20)).
  - reflexivity.
  - apply (bool_decide_unpack _). vm_compute. exact I.
  - reflexivity.
  - reflexivity.
  - reflexivity.
Defined.

Lemma length_active_of_sport s st :
  length (active_of_sport s st) =
    size (filter (λ kr, by_sport kr.2 = s ∧ is_active kr.2) (subscriptions st)).
Proof.
  unfold active_of_sport. rewrite list_filter_filter, length_filter_records.
  f_equal. apply map_filter_ext. intros k r _. simpl. tauto.
Qed.

(** X18.  Subscribing a member that exists to a sport that exists, the pair
    having no record yet, shows in both views: [getMemberWithSports(m)] then
    lists the sport and the new subscription, and the [memberCount] of
    [getSportWithMembers(s)] is one more than before. *)
Theorem subscribe_then_views (st : state) (m s : string) (uuid : string)
    (now : Date) (member : Member.t) (sport : Sport.t) :
  connected st = true →
  members st !! m = Some member →
  sports st !! s = Some sport →
  ¬ has_subscription m s st →
  subscriptions st !! uuid = None →
  ∃ st' before after view,
    subscribeMemberToSport m s uuid now st =
      (Ok (subscriptionData uuid m s now), st') ∧
    getSportWithMembers s st = (Ok (Some before), st) ∧
    getSportWithMembers s st' = (Ok (Some after), st') ∧
    SportWithMembers.memberCount after =
      S (SportWithMembers.memberCount before) ∧
    member ∈ SportWithMembers.members after ∧
    getMemberWithSports m st' = (Ok (Some view), st') ∧
    sport ∈ MemberWithSports.sports view ∧
    subscriptionData uuid m s now ∈ MemberWithSports.subscriptions view.
Proof.
  intros Hc Hm Hs Hno Hfree.
  assert (subscribeMemberToSport m s uuid now st =
            (Ok (subscriptionData uuid m s now),
             replace subscriptionsStore
               (<[uuid := subscriptionData uuid m s now]> (subscriptions st)) st))
    as Hsub.
  { unfold subscribeMemberToSport. rewrite bind_ensureDB by done.
    erewrite bind_Ok by by apply getSubscription_absent. cbv beta iota zeta.
    erewrite bind_Ok; [done|]. apply db_add_fresh; [done|].
    intros k x Hx. right. apply bool_decide_eq_false. intros Hpair.
    apply Hno. by exists k, x. }
  do 4 eexists. split; [exact Hsub|].
  split; [by rewrite getSportWithMembers_connected, Hs|].
  split; [by rewrite getSportWithMembers_connected; simpl; [rewrite Hs|]|].
  split; [|split; [|split; [by rewrite getMemberWithSports_connected; simpl;
                               [rewrite Hm|]|]]]; simpl.
  - rewrite !length_active_of_sport. simpl.
    rewrite map_filter_insert_True by done.
    apply map_size_insert_None, map_lookup_filter_None. by left.
  - apply elem_of_filter_Boolean. exists (subscriptionData uuid m s now).
    split; [|done]. unfold active_of_sport.
    rewrite !list_elem_of_filter, elem_of_records. simpl.
    split_and!; [done..|]. exists uuid. apply lookup_insert_eq.
  - assert (subscriptionData uuid m s now ∈
              active_of_member m
                (replace subscriptionsStore
                   (<[uuid := subscriptionData uuid m s now]> (subscriptions st))
                   st)) as Hin.
    { apply elem_of_active_of_member. split_and!; [done..|].
      exists uuid. apply lookup_insert_eq. }
    split; [|exact Hin].
    apply elem_of_filter_Boolean. by exists (subscriptionData uuid m s now).
Qed.

Lemma subscribe_then_views_witness :
  ∃ st' before after,
    subscribeMemberToSport "m-2" "s-0" "sub-2" 26 two_members =
      (Ok (subscriptionData "sub-2" "m-2" "s-0" 26), st') ∧
    getSportWithMembers "s-0" two_members = (Ok (Some before), two_members) ∧
    getSportWithMembers "s-0" st' = (Ok (Some after), st') ∧
    SportWithMembers.memberCount after = S (SportWithMembers.memberCount before).
Proof.
  destruct (subscribe_then_views two_members "m-2" "s-0" "sub-2" 26
              (memberData carol "m-2" 25) (sportData football "s-0" 0))
    as (st' & before & after & view & Hsub & Hb & Ha & Hcount & _).
  - reflexivity.
  - reflexivity.
  - reflexivity.
  - apply (bool_decide_unpack _). vm_compute. exact I.
  - reflexivity.
  - exists st', before, after. split_and!; [exact Hsub|exact Hb|exact Ha|exact Hcount].
Defined.

(** X19.  Cancelling the active subscription of the pair (m, s) lowers the
    [memberCount] of [getSportWithMembers(s)] by exactly one, while
    [getMemberSubscriptions(m)] still returns the record, now cancelled. *)
Theorem cancel_then_views (st : state) (m s : string) (now : Date)
    (k : string) (r : Subscription.t) (sport : Sport.t) :
  connected st = true →
  consistent st →
  subscriptions st !! k = Some r →
  by_member_sport r = (m, s) →
  is_active r →
  sports st !! s = Some sport →
  ∃ st' before after rows,
    cancelSubscription m s now st = (Ok (updatedSubscription r now), st') ∧
    getSportWithMembers s st = (Ok (Some before), st) ∧
    getSportWithMembers s st' = (Ok (Some after), st') ∧
    SportWithMembers.memberCount before =
      S (SportWithMembers.memberCount after) ∧
    getMemberSubscriptions m st' = (Ok rows, st') ∧
    updatedSubscription r now ∈ rows.
Proof.
  intros Hc Hst Hr Hpair Hact Hs.
  assert (by_sport r = s ∧ by_member r = m) as [Hbs Hbm].
  { unfold by_member_sport in Hpair. by simplify_eq. }
  do 4 eexists. split; [by eapply cancelSubscription_found|].
  split; [by rewrite getSportWithMembers_connected, Hs|].
  split; [by rewrite getSportWithMembers_connected; simpl; [rewrite Hs|]|].
  split; [|split; [unfold_async; by rewrite Hc|]]; simpl.
  - rewrite !length_active_of_sport. simpl.
    rewrite map_filter_insert_False by (simpl; by intros [_ ?]).
    rewrite map_filter_delete, map_size_delete.
    assert (filter (λ kr, by_sport kr.2 = s ∧ is_active kr.2)
              (subscriptions st) !! k = Some r) as Hin
      by by apply map_lookup_filter_Some.
    rewrite Hin. simpl.
    pose proof (map_size_ne_0_lookup_2 _ k (mk_is_Some _ _ Hin)). lia.
  - rewrite list_elem_of_filter, elem_of_records. split; [done|].
    exists k. apply lookup_insert_eq.
Qed.

Lemma cancel_then_views_witness :
  ∃ st' before after,
    cancelSubscription "m-1" "s-0" 30 two_members =
      (Ok (updatedSubscription (subscriptionData "sub-1" "m-1" "s-0" 20) 30), st') ∧
    getSportWithMembers "s-0" two_members = (Ok (Some before), two_members) ∧
    getSportWithMembers "s-0" st' = (Ok (Some after), st') ∧
    SportWithMembers.memberCount before = S (SportWithMembers.memberCount after).
Proof.
  destruct (cancel_then_views two_members "m-1" "s-0" 30 "sub-1"
              (subscriptionData "sub-1" "m-1" "s-0" 20)
              (sportData football "s-0" 0))
    as (st' & before & after & rows & Hc & Hb & Ha & Hcount & _).
  - reflexivity.
  - apply (bool_decide_unpack _). vm_compute. exact I.
  - reflexivity.
  - reflexivity.
  - reflexivity.
  - reflexivity.
  - exists st', before, after. split_and!; [exact Hc|exact Hb|exact Ha|exact Hcount].
Defined.

(** *** The subscriptions page *)

Lemma memberEntry_connected st member :
  connected st = true → memberEntry member st = (Ok (entry_of st member), st).
Proof.
  intros Hc. unfold memberEntry.
  erewrite bind_Ok by by apply getMemberWithSports_connected.
  unfold entry_of. by destruct (members st !! Member.id member).
Qed.

Lemma Promise_all_memberEntry st (l : list Member.t) :
  connected st = true →
  Promise_all (memberEntry <$> l) st = (Ok (entry_of st <$> l), st).
Proof.
  intros Hc. induction l as [|member l IH]; [done|]. simpl.
  erewrite bind_Ok by by apply memberEntry_connected.
  erewrite bind_Ok by exact IH. done.
Qed.

Lemma getAvailableSports_loaded st m member :
  connected st = true →
  consistent st →
  members st !! m = Some member →
  m ≠ "" →
  loadMembersWithSports true (records membersStore (members st)) st =
    (Ok (Some (entry_of st <$> records membersStore (members st))), st) ∧
  ∀ sport,
    sport ∈ getAvailableSports m (records sportsStore (sports st))
              (entry_of st <$> records membersStore (members st)) ↔
    (∃ k, sports st !! k = Some sport) ∧
    ¬ ∃ key, active_at m (Sport.id sport) key st.
Proof.
  intros Hc Hst Hm Hne.
  assert (member ∈ records membersStore (members st)) as Hin
    by (apply elem_of_records; eauto).
  assert (Member.id member = m) as Hid by by eapply consistent_member_id.
  split.
  { unfold loadMembersWithSports. simpl.
    rewrite bool_decide_eq_false_2.
    - erewrite bind_Ok by by apply Promise_all_memberEntry. done.
    - intros Hlen. apply nil_length_inv in Hlen. rewrite Hlen in Hin.
      by apply elem_of_nil in Hin. }
  intros sport. unfold getAvailableSports. rewrite decide_False by done.
  rewrite list_find_fmap.
  destruct (list_find _ _) as [[i member']|] eqn:Hfind; simpl.
  - apply list_find_Some in Hfind as (Hi & Hid' & _). simpl in Hid'.
    assert (member' = member) as ->.
    { apply list_elem_of_lookup_2, elem_of_records in Hi as [k Hk].
      assert (k = m) as -> by (erewrite <- (consistent_member_id st k member'); eauto).
      congruence. }
    rewrite list_elem_of_filter, elem_of_records. unfold entry_of.
    rewrite Hid, Hm. rewrite <- list_fmap_compose. simpl.
    split; intros [H1 H2]; split; try done.
    + intros (key & r & Hr & Hpair & Hact). apply H1.
      apply list_elem_of_fmap. exists sport. split; [done|].
      apply elem_of_filter_Boolean. exists r.
      destruct H2 as [k Hk].
      assert (Subscription.memberId r = Member.id member ∧
              Subscription.sportId r = Sport.id sport) as [Hrm H0].
      { unfold by_member_sport in Hpair. by simplify_eq. }
      split.
      { apply elem_of_active_of_member. split_and!; [done| |by exists key].
        unfold by_member. congruence. }
      rewrite H0, (consistent_sport_id st k sport) by done. exact Hk.
    + intros (sp & Hsp & Hview)%list_elem_of_fmap.
      apply elem_of_filter_Boolean in Hview as (r & Hr & Hlook).
      apply elem_of_active_of_member in Hr as (Hact & Hbm & key & Hkey).
      apply H2. exists key, r. split; [done|]. split; [|done].
      unfold by_member_sport. unfold by_member in Hbm. rewrite Hbm. f_equal.
      rewrite Hsp. symmetry. by eapply consistent_sport_id.
  - apply list_find_None in Hfind. rewrite Forall_forall in Hfind.
    by destruct (Hfind member Hin).
Qed.

(** X20.  With the members and sports of a connected store loaded, the form of
    the subscriptions page offers for a selected member exactly the stored
    sports for which that member has no subscription with status 'active':
    sports with a cancelled subscription, or none, are offered. *)
Theorem available_sports_are_not_actively_subscribed (st : state) (m : string)
    (member : Member.t) :
  connected st = true →
  consistent st →
  members st !! m = Some member →
  m ≠ "" →
  ∃ allMembers allSports membersWithSports,
    getAllMembers st = (Ok allMembers, st) ∧
    getAllSports st = (Ok allSports, st) ∧
    loadMembersWithSports true allMembers st = (Ok (Some membersWithSports), st) ∧
    ∀ sport,
      sport ∈ getAvailableSports m allSports membersWithSports ↔
      (∃ k, sports st !! k = Some sport) ∧
      ¬ ∃ key, active_at m (Sport.id sport) key st.
Proof.
  intros Hc Hst Hm Hne. do 3 eexists.
  split; [unfold_async; by rewrite Hc|].
  split; [unfold_async; by rewrite Hc|].
  by eapply getAvailableSports_loaded.
Qed.

Lemma available_sports_are_not_actively_subscribed_witness :
  ∃ allMembers allSports membersWithSports,
    getAllMembers two_members = (Ok allMembers, two_members) ∧
    getAllSports two_members = (Ok allSports, two_members) ∧
    loadMembersWithSports true allMembers two_members =
      (Ok (Some membersWithSports), two_members) ∧
    (sportData football "s-0" 0
       ∉ getAvailableSports "m-1" allSports membersWithSports) ∧
    (Sport.mk "s-2" "Tennis" "Individual or doubles tennis" "Racquet Sports"
       None 2 2
       ∈ getAvailableSports "m-1" allSports membersWithSports).
Proof.
  destruct (available_sports_are_not_actively_subscribed two_members "m-1"
              (memberData alice "m-1" 10))
    as (ms & ss & rows & Hm & Hs & Hload & Hiff).
  - reflexivity.
  - apply (bool_decide_unpack _). vm_compute. exact I.
  - reflexivity.
  - discriminate.
  - exists ms, ss, rows. split_and!; [exact Hm|exact Hs|exact Hload| |].
    + intros [_ Hno]%Hiff. apply Hno. exists "sub-1".
      exists (subscriptionData "sub-1" "m-1" "s-0" 20).
      split_and!; reflexivity.
    + apply Hiff. split; [exists "s-2"; reflexivity|].
      intros (key & r & Hr & Hpair & _).
      assert (¬ has_subscription "m-1" "s-2" two_members) as Hno
        by (apply (bool_decide_unpack _); vm_compute; exact I).
      apply Hno. exists key, r. split; [exact Hr|exact Hpair].
Defined.

Lemma subscribeMemberToSport_after_cancel st m s uuid now k r :
  connected st = true → consistent st →
  subscriptions st !! k = Some r → by_member_sport r = (m, s) →
  Subscription.status_ r = Subscription.cancelled →
  subscribeMemberToSport m s uuid now st = (Err ConstraintError, st).
Proof.
  intros Hc Hst Hr Hpair Hstatus. unfold subscribeMemberToSport.
  rewrite bind_ensureDB by done.
  erewrite bind_Ok by by eapply getSubscription_found.
  destruct r as [id mid sid date status created updated]; simpl in *.
  subst status. apply bind_Err.
  eapply db_add_collision; [exact Hr|]. simpl.
  apply bool_decide_eq_true. by rewrite Hpair.
Qed.

(** X21.  After [cancelSubscription(m, s)] of an active subscription, the
    form of the subscriptions page (members and sports reloaded) offers the
    sport [s] for the member [m] again, and the call the form then makes,
    [subscribeMemberToSport(m, s)], fails with ConstraintError whatever UUID
    and time it draws. *)
Theorem cancelled_sport_is_offered_and_rejected (st : state) (m s : string)
    (now : Date) (k : string) (r : Subscription.t) (member : Member.t)
    (sport : Sport.t) :
  connected st = true →
  consistent st →
  members st !! m = Some member →
  m ≠ "" →
  sports st !! s = Some sport →
  subscriptions st !! k = Some r →
  by_member_sport r = (m, s) →
  is_active r →
  ∃ st' allMembers allSports membersWithSports,
    cancelSubscription m s now st = (Ok (updatedSubscription r now), st') ∧
    getAllMembers st' = (Ok allMembers, st') ∧
    getAllSports st' = (Ok allSports, st') ∧
    loadMembersWithSports true allMembers st' =
      (Ok (Some membersWithSports), st') ∧
    sport ∈ getAvailableSports m allSports membersWithSports ∧
    ∀ uuid now',
      subscribeMemberToSport m s uuid now' st' = (Err ConstraintError, st').
Proof.
  intros Hc Hst Hm Hne Hs Hr Hpair Hact.
  pose proof (cancelSubscription_found st m s now k r Hc Hst Hr Hpair) as Hcancel.
  assert (consistent (replace subscriptionsStore
            (<[k := updatedSubscription r now]> (subscriptions st)) st)) as Hst'.
  { pose proof (preserving_cancelSubscription m s now st Hst) as Hp.
    by rewrite Hcancel in Hp. }
  do 4 eexists. split; [exact Hcancel|].
  split; [unfold_async; by rewrite Hc|].
  split; [unfold_async; by rewrite Hc|].
  destruct (getAvailableSports_loaded
              (replace subscriptionsStore
                 (<[k := updatedSubscription r now]> (subscriptions st)) st)
              m member Hc Hst' Hm Hne) as [Hload Hiff].
  split; [exact Hload|]. split.
  - apply Hiff. split; [by exists s|].
    intros (key & sub & Hsub & Hpair' & Hact'). simpl in Hsub.
    rewrite (consistent_sport_id st s sport) in Hpair' by done.
    exact (cancelled_pair_not_active st m s now k r sub key
             Hst Hr Hpair Hsub Hpair' Hact').
  - intros uuid now'.
    eapply (subscribeMemberToSport_after_cancel _ m s uuid now' k
              (updatedSubscription r now)); [done|done| |done|done].
    simpl. apply lookup_insert_eq.
Qed.

Lemma cancelled_sport_is_offered_and_rejected_witness :
  ∃ st',
    cancelSubscription "m-1" "s-0" 30 two_members =
      (Ok (updatedSubscription (subscriptionData "sub-1" "m-1" "s-0" 20) 30), st') ∧
    subscribeMemberToSport "m-1" "s-0" "sub-2" 40 st' = (Err ConstraintError, st').
Proof.
  destruct (cancelled_sport_is_offered_and_rejected two_members "m-1" "s-0" 30
              "sub-1" (subscriptionData "sub-1" "m-1" "s-0" 20)
              (memberData alice "m-1" 10) (sportData football "s-0" 0))
    as (st' & ms & ss & rows & Hcancel & _ & _ & _ & _ & Hreject).
  - reflexivity.
  - apply (bool_decide_unpack _). vm_compute. exact I.
  - reflexivity.
  - discriminate.
  - reflexivity.
  - reflexivity.
  - reflexivity.
  - reflexivity.
  - exists st'. split; [exact Hcancel|apply Hreject].
Defined.
